(** * amc: the Cluster model (package models, cluster.go)

    A shallow embedding of the parts of [Cluster] that the checked
    properties are about: auto-removal, the node map (AddNode,
    RemoveNodeByAddress, NodeList), build classification and version gating,
    namespace aggregation, the info fan-out, mail notifications and the
    backup/restore handles.

    Conventions.
    - A Go [int64] is a [Z]; arithmetic that can leave the 64-bit range is
      wrapped with [wrap64] (two's complement) or saturated with [sat64]
      where the Go library saturates.
    - A Go [float64] is a primitive binary64 [float].
    - A Go [map] is a [gmap].  Go leaves the order of [range] over a map
      unspecified, so every function that ranges over a map takes the order
      of that iteration as an explicit list; the theorems quantify over all
      permutations of the map's entries.
    - A [*Node] is a [Node] record carrying the identity of the pointer
      ([node_ptr]); pointer comparison compares that field.
    - Reads of the clock, DNS resolution, the mail transport and the
      persistence layer are explicit inputs.
    - The mutex operations are not modelled: every function below is one
      atomic step. *)

From Stdlib Require Import ZArith Ascii String PrimFloat FloatOps.
From stdpp Require Import gmap strings list fin_maps sorting pretty.

Local Open Scope Z_scope.
Local Open Scope string_scope.

(** ** Go base types *)

Definition int64_min : Z := - 2 ^ 63.
Definition int64_max : Z := 2 ^ 63 - 1.

(** Two's complement wrap-around of 64-bit signed arithmetic. *)
Definition wrap64 (z : Z) : Z := (z + 2 ^ 63) mod 2 ^ 64 - 2 ^ 63.

(** Saturation to the [int64] range. *)
Definition sat64 (z : Z) : Z := Z.max int64_min (Z.min int64_max z).

(** [float64(i)] for an [int64] [i]: round to nearest, ties to even. *)
Definition float64_of_int64 (i : Z) : float :=
  SF2Prim (SpecFloat.binary_normalize prec emax i 0 false).

(** [error]: [None] is [nil], [Some msg] is an error whose [Error()] is
    [msg]. *)
Abbreviation error := (option string).

(** Outcome of a call that may panic. *)
Inductive outcome (A : Type) : Type :=
| Panic
| Ret (a : A).
Arguments Panic {A}.
Arguments Ret {A} a.

(** *** package time *)

(** An instant is a count of nanoseconds on the wall clock; a [Duration] is
    an [int64] count of nanoseconds. *)
Abbreviation Time := Z.
Abbreviation Duration := Z.

Definition Second : Duration := 1000000000.

(** [t.Sub(u)]: the difference, saturated to the range of [Duration]. *)
Definition time_Sub (t u : Time) : Duration := sat64 (t - u).

(** [time.Since(t)], with the clock reading [now] made explicit. *)
Definition time_Since (now t : Time) : Duration := time_Sub now t.

(** [time.Duration(n) * time.Second] for an integer [n]: the conversion is
    the identity on 64-bit integers, the product is an [int64] product. *)
Definition seconds (n : Z) : Duration := wrap64 (n * Second).

(** *** package strings *)

(** [strings.Join(l, sep)]. *)
Fixpoint Join (l : list string) (sep : string) : string :=
  match l with
  | [] => ""
  | [x] => x
  | x :: xs => x ++ sep ++ Join xs sep
  end.

Definition upper_ascii (a : ascii) : ascii :=
  let n := N_of_ascii a in
  if ((97 <=? n) && (n <=? 122))%N then ascii_of_N (n - 32) else a.

(** [strings.ToUpper] on ASCII text. *)
Fixpoint ToUpper (s : string) : string :=
  match s with
  | EmptyString => EmptyString
  | String a r => String (upper_ascii a) (ToUpper r)
  end.

(** Byte-wise order on strings, as Go compares them. *)
Definition string_le (a b : string) : Prop := String.leb a b = true.

#[global] Instance string_le_dec : RelDecision string_le :=
  λ a b, bool_eq_dec (String.leb a b) true.

(** [common.SortStrings]: sorts in increasing byte order and returns the
    slice. *)
Definition SortStrings (l : list string) : list string :=
  merge_sort string_le l.

(** [s] occurs in [t] as a substring. *)
Fixpoint contains (t s : string) : bool :=
  String.prefix s t ||
  match t with
  | EmptyString => false
  | String _ r => contains r s
  end.

(** ** Stats (package common) *)

(** The values held in a [common.Stats] (a [map[string]interface{}]).
    [VLeast node value] is the two-key map
    [{"node": node, "value": value}] that NamespaceInfo stores under
    [least_available_pct]; [None] is a [nil] entry. *)
Inductive Value : Type :=
| VNil
| VInt (i : Z)
| VFloat (f : float)
| VString (s : string)
| VLeast (node : option string) (value : option float).

Abbreviation Stats := (gmap string Value).

(** Modelled from the spec: [Stats.TryFloat] is in package common, whose
    source is missing; the spec describes it as a typed accessor.  It yields the number stored under [name], and [aDefault] when
    there is none. *)
Definition TryFloat (s : Stats) (name : string) (aDefault : float) : float :=
  match s !! name with
  | Some (VFloat f) => f
  | Some (VInt i) => float64_of_int64 i
  | _ => aDefault
  end.

(** Modelled from the spec: [Stats.TryInt], the integer accessor of package
    common. *)
Definition TryInt (s : Stats) (name : string) (aDefault : Z) : Z :=
  match s !! name with
  | Some (VInt i) => i
  | _ => aDefault
  end.

Definition aggregate_value (mine other : Value) : option Value :=
  match mine, other with
  | VInt a, VInt b => Some (VInt (wrap64 (a + b)))
  | VFloat a, VFloat b => Some (VFloat (a + b)%float)
  | VInt a, VFloat b => Some (VFloat (float64_of_int64 a + b)%float)
  | VFloat a, VInt b => Some (VFloat (a + float64_of_int64 b)%float)
  | VNil, v => Some v
  | v, _ => Some v
  end.

(** Modelled from the spec: [Stats.AggregateStats] is in package common;
    the spec describes it as a key-wise numeric sum that leaves
    non-summable entries alone.  The receiver is updated in place; the model
    returns its new contents. *)
Definition AggregateStats (s other : Stats) : Stats :=
  union_with aggregate_value s other.

(** Three-digit groups of a decimal numeral, most significant first. *)
Fixpoint comma_groups (fuel : nat) (n : N) : list string :=
  match fuel with
  | O => [pretty n]
  | S fuel' =>
    if (n <? 1000)%N then [pretty n]
    else
      let r := (n mod 1000)%N in
      let pad := if (r <? 10)%N then "00" else if (r <? 100)%N then "0" else "" in
      comma_groups fuel' (n / 1000)%N ++ [pad ++ pretty r]
  end.

(** Modelled from the spec: [common.Comma(v, sep)] is in package common;
    the spec asks for thousands separators. *)
Definition Comma (v : Z) (sep : string) : string :=
  (if (v <? 0)%Z then "-" else "") ++ Join (comma_groups 7 (Z.abs_N v)) sep.

(** ** package version (github.com/mcuadros/go-version) *)

(** [version.Compare(a, b, op)] in terms of the library's three-way
    comparison [CompareSimple], which is an input of the model. *)
Definition version_Compare (CompareSimple : string → string → comparison)
    (a b op : string) : bool :=
  let c := CompareSimple a b in
  if String.eqb op ">" then match c with Gt => true | _ => false end
  else if String.eqb op ">=" then match c with Lt => false | _ => true end
  else if String.eqb op "<" then match c with Lt => true | _ => false end
  else false.

(** Value of a decimal numeral; characters that are not digits are
    skipped. *)
Fixpoint decimal_value (acc : N) (s : string) : N :=
  match s with
  | EmptyString => acc
  | String a r =>
    let n := N_of_ascii a in
    if ((48 <=? n) && (n <=? 57))%N then decimal_value (10 * acc + (n - 48))%N r
    else decimal_value acc r
  end.

(** The components of a dotted version, [cur] being the component read so
    far. *)
Fixpoint dotted_parts (cur : string) (s : string) : list N :=
  match s with
  | EmptyString => [decimal_value 0 cur]
  | String a r =>
    if Ascii.eqb a "."%char then decimal_value 0 cur :: dotted_parts "" r
    else dotted_parts (cur ++ String a EmptyString) r
  end.

Fixpoint compare_parts (l1 l2 : list N) : comparison :=
  match l1, l2 with
  | [], _ => if forallb (N.eqb 0) l2 then Eq else Lt
  | _, [] => if forallb (N.eqb 0) l1 then Eq else Gt
  | x :: r1, y :: r2 => match (x ?= y)%N with Eq => compare_parts r1 r2 | c => c end
  end.

(** Modelled from the spec: the dotted-semver ordering on purely numeric
    versions such as [4.5.1]: components are compared as numbers, left to
    right, a missing component counting as zero.  This is the instance of
    [CompareSimple] used in the worked examples. *)
Definition dotted_compare (a b : string) : comparison :=
  compare_parts (dotted_parts "" a) (dotted_parts "" b).

(** ** package as (the database client) *)

(** [as.Host]. *)
Record Host : Type := mkHost { Name : string; TLSName : string; Port : Z }.

#[global] Instance Host_eq_dec : EqDecision Host.
Proof. solve_decision. Defined.

#[global] Instance Host_countable : Countable Host.
Proof.
  refine (inj_countable' (λ h, (Name h, TLSName h, Port h))
            (λ t, mkHost t.1.1 t.1.2 t.2) _).
  by intros [].
Defined.

(** [as.NewHost(name, port)]. *)
Definition NewHost (name : string) (port : Z) : Host := mkHost name "" port.

(** [Host.String()]: [name:port]. *)
Definition Host_String (h : Host) : string := Name h ++ ":" ++ pretty (Port h).

(** What the model keeps of [*as.Client]: whether it is connected and the
    seeds of its cluster. *)
Record Client : Type := mkClient { connected : bool; client_seeds : list Host }.

(** ** Alerts (package common) *)

Record Alert : Type := mkAlert {
  Alert_Id : Z;
  Alert_ClusterId : string;
  Alert_Created : Z;
  Alert_NodeAddress : string;
  Alert_Desc : string;
  Alert_Status : string
}.

(** Modelled from the spec: the source of [common.AlertBucket] is missing.
    The spec: a bounded FIFO; each appended alert gets the next
    monotonic id; [DrainNewAlerts] returns every alert with id greater than
    the last-drained cursor and advances the cursor. *)
Record AlertBucket : Type := mkAlertBucket {
  bucket_capacity : nat;
  bucket_alerts : list Alert;   (* oldest first *)
  bucket_lastId : Z;            (* the id given last *)
  bucket_cursor : Z             (* the greatest id drained so far *)
}.

Definition NewAlertBucket (capacity : nat) : AlertBucket :=
  mkAlertBucket capacity [] 0 0.

(** Modelled from the spec: recording an alert gives it the next id and
    drops the oldest alerts beyond the capacity. *)
Definition AlertBucket_Record (b : AlertBucket) (node desc status : string)
    (now : Z) : AlertBucket :=
  let id := bucket_lastId b + 1 in
  let all := (bucket_alerts b ++ [mkAlert id "" now node desc status])%list in
  mkAlertBucket (bucket_capacity b)
    (drop (length all - bucket_capacity b)%nat all) id (bucket_cursor b).

(** Modelled from the spec: [AlertBucket.DrainNewAlerts]. *)
Definition DrainNewAlerts (b : AlertBucket) : list Alert * AlertBucket :=
  let new := List.filter (λ a, bucket_cursor b <? Alert_Id a)%Z (bucket_alerts b) in
  (new,
   mkAlertBucket (bucket_capacity b) (bucket_alerts b) (bucket_lastId b)
     (foldr (λ a m, Z.max (Alert_Id a) m) (bucket_cursor b) new)).

(** ** Backup and restore handles *)

Inductive BackupRestoreType : Type :=
| BackupRestoreTypeBackup
| BackupRestoreTypeRestore.

(** Modelled from the spec: the statuses of a handle are in-progress, ok,
    failed and aborted; the source names only the first. *)
Inductive BackupRestoreStatus : Type :=
| BackupStatusInProgress
| BackupStatusOk
| BackupStatusFailed
| BackupStatusAborted.

#[global] Instance BackupRestoreStatus_eq_dec : EqDecision BackupRestoreStatus.
Proof. solve_decision. Defined.

(** Modelled from the spec: [common.BackupRestore] and its constructor
    [common.NewBackupRestore] are missing from the sources; the
    record keeps the constructor's arguments, in the order of the calls in
    [Cluster.Backup] and [Cluster.Restore]. *)
Record BackupRestore : Type := NewBackupRestore {
  BR_Type : BackupRestoreType;
  BR_ClusterId : string;
  BR_Namespace : string;
  BR_DestinationAddress : string;
  BR_Username : string;
  BR_Password : string;
  BR_DestinationPath : string;
  BR_Sets : string;
  BR_MetadataOnly : bool;
  BR_TerminateOnChange : bool;
  BR_ScanPriority : Z;
  BR_Status : BackupRestoreStatus
}.

(** [type Backup struct { *common.BackupRestore; cluster *Cluster }]; the
    back-reference to the cluster is not kept. *)
Record Backup : Type := mkBackup { Backup_BackupRestore : BackupRestore }.

Record Restore : Type := mkRestore {
  Restore_BackupRestore : BackupRestore;
  Threads : Z;
  MissingRecordsOnly : bool;
  IgnoreGenerationNum : bool
}.

(** ** Configuration and observer *)

(** The options of [common.Config] that [Cluster] reads.
    [InactiveDurBeforeRemoval] is a Go [int] (64 bits on the platforms the
    service is built for), in seconds. *)
Record Config : Type := mkConfig {
  AMC_UpdateInterval : Z;
  AMC_InactiveDurBeforeRemoval : Z;
  Mailer_Host : string
}.

Record ObserverT : Type := mkObserver { config : Config }.

(** ** Node *)

Inductive NodeStatus : Type := On | Off.

#[global] Instance NodeStatus_eq_dec : EqDecision NodeStatus.
Proof. solve_decision. Defined.

Record Namespace : Type := mkNamespace { latestStats : Stats }.

(** Modelled from the spec: the source of the [Node] type is missing.  The record holds what [Cluster] asks of a node: its host (the
    field [origHost] that [AddNode] assigns), its status (on or off), the
    build and cluster name it reports, and its namespaces.  [node_ptr] is
    the identity of the [*Node] pointer. *)
Record Node : Type := mkNode {
  node_ptr : positive;
  origHost : Host;
  status : NodeStatus;
  build : string;
  clusterName : string;
  namespaces : gmap string Namespace
}.

Module Node.

(** Modelled from the spec: a node is identified by [host:port]. *)
Definition Address (n : Node) : string := Host_String (origHost n).

Definition Status (n : Node) : NodeStatus := status n.

Definition Build (n : Node) : string := build n.

Definition ClusterName (n : Node) : string := clusterName n.

Definition NamespaceByName (n : Node) (ns : string) : option Namespace :=
  namespaces n !! ns.

(** [node.origHost = host]. *)
Definition setOrigHost (n : Node) (h : Host) : Node :=
  mkNode (node_ptr n) h (status n) (build n) (clusterName n) (namespaces n).

End Node.

(** Modelled from the spec: reads return copies, so [ns.Stats()] is a fresh
    map with the namespace's latest stats. *)
Definition Namespace_Stats (ns : Namespace) : Stats := latestStats ns.

(** ** Cluster *)

(** The fields of [Cluster] that the functions below read or write.  The
    aggregates, jobs, users and roles are left out: none of these functions
    touches them. *)
Record Cluster : Type := mkCluster {
  observer : ObserverT;
  client : option Client;
  nodes : gmap Host Node;
  lastPing : Time;
  uuid : string;
  alias : option string;
  permanent : bool;
  alerts : AlertBucket;
  activeBackup : option Backup;
  activeRestore : option Restore
}.

Definition set_client (c : Cluster) (v : option Client) : Cluster :=
  mkCluster (observer c) v (nodes c) (lastPing c) (uuid c) (alias c)
    (permanent c) (alerts c) (activeBackup c) (activeRestore c).

Definition set_nodes (c : Cluster) (v : gmap Host Node) : Cluster :=
  mkCluster (observer c) (client c) v (lastPing c) (uuid c) (alias c)
    (permanent c) (alerts c) (activeBackup c) (activeRestore c).

Definition set_lastPing (c : Cluster) (v : Time) : Cluster :=
  mkCluster (observer c) (client c) (nodes c) v (uuid c) (alias c)
    (permanent c) (alerts c) (activeBackup c) (activeRestore c).

Definition set_alerts (c : Cluster) (v : AlertBucket) : Cluster :=
  mkCluster (observer c) (client c) (nodes c) (lastPing c) (uuid c) (alias c)
    (permanent c) v (activeBackup c) (activeRestore c).

Definition set_activeBackup (c : Cluster) (v : option Backup) : Cluster :=
  mkCluster (observer c) (client c) (nodes c) (lastPing c) (uuid c) (alias c)
    (permanent c) (alerts c) v (activeRestore c).

Definition set_activeRestore (c : Cluster) (v : option Restore) : Cluster :=
  mkCluster (observer c) (client c) (nodes c) (lastPing c) (uuid c) (alias c)
    (permanent c) (alerts c) (activeBackup c) v.

Definition set_alias (c : Cluster) (v : option string) : Cluster :=
  mkCluster (observer c) (client c) (nodes c) (lastPing c) (uuid c) v
    (permanent c) (alerts c) (activeBackup c) (activeRestore c).

Definition set_permanent (c : Cluster) (v : bool) : Cluster :=
  mkCluster (observer c) (client c) (nodes c) (lastPing c) (uuid c) (alias c)
    v (alerts c) (activeBackup c) (activeRestore c).

(** The [Cluster] struct with the fields that the refresh gate and the
    credentials need besides those of [Cluster] above, which [core] holds:
    [lastUpdate], [updateInterval] (seconds), [user] and [password]. *)
Record ClusterState : Type := mkClusterState {
  core : Cluster;
  lastUpdate : Time;
  updateInterval : Z;
  user : option string;
  password : option string
}.

Definition set_core (s : ClusterState) (v : Cluster) : ClusterState :=
  mkClusterState v (lastUpdate s) (updateInterval s) (user s) (password s).

Definition set_lastUpdate (s : ClusterState) (v : Time) : ClusterState :=
  mkClusterState (core s) v (updateInterval s) (user s) (password s).

Definition set_updateInterval (s : ClusterState) (v : Z) : ClusterState :=
  mkClusterState (core s) (lastUpdate s) v (user s) (password s).

Definition set_password (s : ClusterState) (v : option string) : ClusterState :=
  mkClusterState (core s) (lastUpdate s) (updateInterval s) (user s) v.

(** The zero value of [time.Time], 1 January of year 1: instants are counted
    from it. *)
Definition zeroTime : Time := 0.

(** [it] is an order in which a [range] over the map [m] can run. *)
Definition range_of {K A} `{Countable K} (m : gmap K A) (it : list (K * A)) : Prop :=
  it ≡ₚ map_to_list m.

(** The result of [BuildDetails]: the two entries of the map it returns. *)
Record BuildDetailsT : Type := mkBuildDetails {
  version_list : gmap string (list string);
  latest_build_no : string
}.

(** The message each goroutine of [RequestInfoAll] puts on the channel. *)
Record nodeCommand : Type := mkNodeCommand {
  nc_Node : Node;
  nc_Res : gmap string string;
  nc_Err : error
}.

(** What a delivery goroutine of [SendEmailNotifications] does, in order. *)
Inductive MailEvent : Type :=
| EvSendMail (template subject : string) (context : gmap string string) (result : error)
| EvLog (msg : string)
| EvSleep (d : Duration).

(** [mailer.SendMail(config, template, subject, context)]: the transport is
    outside the model, so its answer is an input; the last argument counts
    the earlier calls made for the same message. *)
Abbreviation Mailer := (string → string → gmap string string → nat → error).

Module Cluster.

Definition updateLastestPing (now : Time) (c : Cluster) : Cluster :=
  set_lastPing c now.

Definition shouldAutoRemove (now : Time) (c : Cluster) : bool :=
  negb (permanent c)
  && (0 <? AMC_InactiveDurBeforeRemoval (config (observer c)))%Z
  && (seconds (AMC_InactiveDurBeforeRemoval (config (observer c)))
        <? time_Since now (lastPing c))%Z.

(** [c.Nodes()]: the nodes in the order [it] of the range over [c.nodes]. *)
Definition Nodes (it : list (Host * Node)) : list Node := it.*2.

Definition FindNodeByAddress (it : list (Host * Node)) (address : string) : option Node :=
  List.find (λ node, String.eqb (Node.Address node) address) (Nodes it).

(** [resolveHost] is the DNS lookup and [newNode] the value that the
    constructor call [newNode(c, nil)] returns; both are inputs.  A [nil]
    client makes [c.client.Cluster()] panic. *)
Definition AddNode (resolveHost : string → list string * error) (newNode : Node)
    (c : Cluster) (address : string) (port : Z) : outcome (Cluster * error) :=
  match resolveHost address with
  | (_, Some err) => Ret (c, Some err)
  | ([], None) => Ret (c, None)
  | (first :: rest, None) =>
    if existsb (λ address, bool_decide (is_Some (nodes c !! NewHost address port)))
         (first :: rest)
    then Ret (c, Some "Node already exists")
    else
      let host := NewHost first port in
      match client c with
      | None => Panic
      | Some cl =>
        let c := set_client c (Some (mkClient (connected cl) (client_seeds cl ++ [host]))) in
        Ret (set_nodes c (<[host := Node.setOrigHost newNode host]> (nodes c)), None)
      end
  end.

(** [it1] is the order of the range run by [FindNodeByAddress], [it2] the
    order of the range that rebuilds the map. *)
Definition RemoveNodeByAddress (it1 it2 : list (Host * Node)) (c : Cluster)
    (address : string) : Cluster * error :=
  match FindNodeByAddress it1 address with
  | None => (c, Some ("Node " ++ address ++ " not found."))
  | Some node =>
    if bool_decide (Node.Status node = On)
    then (c, Some ("Node " ++ address ++ " is active. Only inactive nodes can be removed."))
    else
      let newNodes :=
        foldl (λ (m : gmap Host Node) '(host, oldNode),
                 if bool_decide (node_ptr node ≠ node_ptr oldNode)
                 then <[host := oldNode]> m else m) ∅ it2 in
      (set_nodes c newNodes, None)
  end.

Definition NodeList (it : list (Host * Node)) : list string :=
  SortStrings (Node.Address <$> Nodes it).

(** The loop shared by [NodeCompatibility] and [BuildDetails]:
    [versionList[build] = append(versionList[build], node.Address())]. *)
Definition versionList_of (ns : list Node) : gmap string (list string) :=
  foldl (λ (m : gmap string (list string)) node,
           <[Node.Build node := (default [] (m !! Node.Build node) ++ [Node.Address node])%list]> m)
        ∅ ns.

Definition NodeCompatibility (it : list (Host * Node)) : string :=
  if (size (versionList_of (Nodes it)) <=? 1)%nat then "homogeneous" else "compatible".

Definition Status (c : Cluster) : string :=
  match client c with
  | Some cl => if connected cl then "on" else "off"
  | None => "off"
  end.

Definition Id (c : Cluster) : string := uuid c.

Definition Name (it : list (Host * Node)) : option string :=
  Node.ClusterName <$>
    List.find (λ node, negb (String.eqb (Node.ClusterName node) "")
                       && negb (String.eqb (Node.ClusterName node) "null"))
      (Nodes it).

Definition Alias (it : list (Host * Node)) (c : Cluster) : option string :=
  match alias c with
  | Some a => if (0 <? String.length a)%nat then Some a else Name it
  | None => Name it
  end.

Definition BuildDetails (CompareSimple : string → string → comparison)
    (now : Time) (it : list (Host * Node)) (c : Cluster) : Cluster * BuildDetailsT :=
  let versionList := versionList_of (Nodes it) in
  let latestBuild :=
    foldl (λ latestBuild node,
             if version_Compare CompareSimple (Node.Build node) latestBuild ">"
             then Node.Build node else latestBuild) "" (Nodes it) in
  (updateLastestPing now c, mkBuildDetails versionList latestBuild).

(** The error of [versionSupported] for the build [ver] run by [nodeList]. *)
Definition unsupported_error (oldest : string) (nodeList : list string) (ver : string) : string :=
  "Database cluster is not supported. Latest supported version is: `v" ++ oldest
  ++ "`. Nodes [" ++ Join nodeList ", " ++ "] are at `v" ++ ver ++ "`".

(** [vit] is the order of the range over [verList]. *)
Definition versionSupported (CompareSimple : string → string → comparison)
    (now : Time) (it : list (Host * Node)) (vit : list (string * list string))
    (c : Cluster) (oldest : string) : Cluster * error :=
  let '(c, buildDetails) := BuildDetails CompareSimple now it c in
  (c,
   (λ '(ver, nodeList), unsupported_error oldest nodeList ver) <$>
     List.find (λ '(ver, _), version_Compare CompareSimple ver oldest "<") vit).

(** The channel of [RequestInfoAll] holds one [nodeCommand] per node of
    [c.Nodes()], in the order in which the goroutines delivered them; [ch] is
    that sequence.  The result map is keyed by the [*Node] pointer.  The
    branch for a [nil] node is left out: the values of [c.nodes] all come
    from [newNode] and are never [nil].  [RequestInfoAll_collect] is the
    body of the loop that reads the channel. *)
Definition RequestInfoAll_collect (cmd : string)
    (acc : gmap positive string * list string) (r : nodeCommand)
    : gmap positive string * list string :=
  let '(res, errsStr) := acc in
  let res := <[node_ptr (nc_Node r) := ""]> res in
  match nc_Err r with
  | Some err => (<[node_ptr (nc_Node r) := err]> res, (errsStr ++ [err])%list)
  | None =>
    if (0 <? size (nc_Res r))%nat
       && (0 <? String.length (default "" (nc_Res r !! cmd)))%nat
    then (<[node_ptr (nc_Node r) := default "" (nc_Res r !! cmd)]> res, errsStr)
    else (res, errsStr)
  end.

Definition RequestInfoAll (cmd : string) (ch : list nodeCommand)
    : gmap positive string * error :=
  let '(res, errsStr) := foldl (RequestInfoAll_collect cmd) (∅, []) ch in
  (res, if (0 <? length errsStr)%nat then Some (Join errsStr ", ") else None).

(** The body of the inner loop of [NamespaceInfo] for [node] and [nsName].
    [None] is a panic: the type assertion on a [least_available_pct] entry
    that is not a map. *)
Definition NamespaceInfo_body (c : Cluster) (node : Node)
    (res : gmap string (gmap string Value)) (nsName : string)
    : option (gmap string (gmap string Value)) :=
  match Node.NamespaceByName node nsName with
  | None => Some res
  | Some ns =>
    let stats := Namespace_Stats ns in
    let nsStats :=
      match res !! nsName with
      | None => stats
      | Some nsStats => AggregateStats nsStats stats
      end in
    let availPct := TryFloat stats "available_pct" (-1)%float in
    leastDiskPct ←
      (if (0 <=? availPct)%float then
         lpct ← match nsStats !! "least_available_pct" with
                | None | Some VNil => Some (None, None)
                | Some (VLeast n v) => Some (n, v)
                | Some _ => None
                end;
         Some (match lpct.2 with
               | None => (Some (Node.Address node), Some availPct)
               | Some value =>
                 if (availPct <? value)%float
                 then (Some (Node.Address node), Some availPct)
                 else lpct
               end)
       else Some (None, None));
    let nsStats :=
      <["master-objects-tombstones" :=
          VString (Comma (TryInt nsStats "master-objects" 0) "," ++ " / "
                   ++ Comma (TryInt nsStats "master_tombstones" 0) ",")]> nsStats in
    let nsStats :=
      <["prole-objects-tombstones" :=
          VString (Comma (TryInt nsStats "prole-objects" 0) "," ++ " / "
                   ++ Comma (TryInt nsStats "prole_tombstones" 0) ",")]> nsStats in
    let nsStats := <["least_available_pct" := VLeast leastDiskPct.1 leastDiskPct.2]> nsStats in
    let nsStats := <["cluster_status" := VString (Status c)]> nsStats in
    Some (<[nsName := nsStats]> res)
  end.

(** A left fold whose step may panic. *)
Fixpoint fold_loop {A B : Type} (f : A → B → option A) (a : A) (l : list B) : option A :=
  match l with
  | [] => Some a
  | x :: r => a' ← f a x; fold_loop f a' r
  end.

Definition NamespaceInfo (it : list (Host * Node)) (c : Cluster)
    (namespaces : list string) : option (gmap string (gmap string Value)) :=
  let nodes := Nodes it in
  match fold_loop (λ res node, fold_loop (NamespaceInfo_body c node) res namespaces)
          (∅ : gmap string (gmap string Value)) nodes with
  | None => None
  | Some res =>
    Some ((λ stats : gmap string Value,
             <["repl-factor" :=
                 VInt (Z.quot (TryInt stats "repl-factor" 0) (Z.of_nat (length nodes)))]> stats)
            <$> res)
  end.

(** The delivery loop [for i := 0; i < 5; i++], from iteration [i] on with
    [left] iterations to go. *)
Fixpoint deliver_from (SendMail : Mailer) (subject : string)
    (context : gmap string string) (i left : nat) : list MailEvent :=
  match left with
  | O => []
  | S left' =>
    match SendMail "alerts/generic.html" subject context i with
    | None => [EvSendMail "alerts/generic.html" subject context None]
    | Some err =>
      EvSendMail "alerts/generic.html" subject context (Some err)
      :: EvLog ("Failed to send the notification email: " ++ err)
      :: EvSleep (5 * Second)
      :: deliver_from SendMail subject context (S i) left'
    end
  end.

(** The goroutine started for one alert. *)
Definition deliver (SendMail : Mailer) (sanitizeHTML : string → string)
    (context : gmap string string) : list MailEvent :=
  deliver_from SendMail
    ("AMC Alert: " ++ sanitizeHTML (default "" (context !! "Message"))) context 0 5.

(** The result is the new state of the cluster and, for each goroutine
    started, the events of that goroutine. *)
Definition SendEmailNotifications (SendMail : Mailer) (sanitizeHTML : string → string)
    (it : list (Host * Node)) (c : Cluster) : Cluster * list (list MailEvent) :=
  let '(newAlerts, bucket) := DrainNewAlerts (alerts c) in
  let c := set_alerts c bucket in
  if (String.length (Mailer_Host (config (observer c))) =? 0)%nat then (c, [])
  else
    let clusterName := match Alias it c with Some alias => alias | None => Id c end in
    (c,
     (λ alert,
        let msg : gmap string string :=
          <["Title" := "Alert"]>
          (<["Cluster" := clusterName]>
          (<["Node" := Alert_NodeAddress alert]>
          (<["Status" := "<font color='" ++ Alert_Status alert ++ "'><strong>"
                         ++ ToUpper (Alert_Status alert) ++ "</strong></font>"]>
          (<["Message" := Alert_Desc alert]> ∅)))) in
        deliver SendMail sanitizeHTML msg) <$> newAlerts).

Definition CurrentBackup (c : Cluster) : option Backup := activeBackup c.

Definition CurrentRestore (c : Cluster) : option Restore := activeRestore c.

(** [Save] and [Execute] are the methods of the handle; persistence and the
    background worker are outside the model, so their results are inputs. *)
Definition Backup (Save Execute : Backup → error) (c : Cluster)
    (Namespace DestinationAddress DestinationPath Username Password Sets : string)
    (MetadataOnly TerminateOnChange : bool) (ScanPriority : Z)
    : Cluster * (option Backup * error) :=
  if match activeBackup c with
     | Some b => bool_decide (BR_Status (Backup_BackupRestore b) = BackupStatusInProgress)
     | None => false
     end
  then (c, (None, Some "Another backup operation already exists and is in progress."))
  else
    let b :=
      mkBackup (NewBackupRestore BackupRestoreTypeBackup (Id c) Namespace
                  DestinationAddress Username Password DestinationPath Sets
                  MetadataOnly TerminateOnChange ScanPriority BackupStatusInProgress) in
    let c := set_activeBackup c (Some b) in
    match Save b with
    | Some err => (set_activeBackup c None, (None, Some err))
    | None => (c, (Some b, Execute b))
    end.

Definition Restore (Save Execute : Restore → error) (c : Cluster)
    (Namespace DestinationAddress DestinationPath Username Password : string)
    (Threads : Z) (MissingRecordsOnly IgnoreGenerationNum : bool)
    : Cluster * (option Restore * error) :=
  if match activeRestore c with
     | Some r => bool_decide (BR_Status (Restore_BackupRestore r) = BackupStatusInProgress)
     | None => false
     end
  then (c, (None, Some "Another backup operation already exists and is in progress."))
  else
    let r :=
      mkRestore (NewBackupRestore BackupRestoreTypeRestore (Id c) Namespace
                   DestinationAddress Username Password DestinationPath ""
                   false false 2 BackupStatusInProgress)
        Threads MissingRecordsOnly IgnoreGenerationNum in
    let c := set_activeRestore c (Some r) in
    match Save r with
    | Some err => (set_activeRestore c None, (None, Some err))
    | None => (c, (Some r, Execute r))
    end.

(** *** The connection, the alias and the node queries *)

Definition setPermanent (c : Cluster) (v : bool) : Cluster := set_permanent c v.



Definition SetAlias (c : Cluster) (alias : string) : Cluster :=
  if (String.length alias =? 0)%nat then set_alias c None else set_alias c (Some alias).

Definition OffNodes (it : list (Host * Node)) : list string :=
  foldl (λ (res : list string) node,
           if bool_decide (Node.Status node = Off)
           then (res ++ [Node.Address node])%list else res)
        [] (Nodes it).

Definition RandomActiveNode (it : list (Host * Node)) : option Node :=
  List.find (λ node, bool_decide (Node.Status node = On)) (Nodes it).

(** Each address is looked up by its own call of [FindNodeByAddress], which
    runs its own range over the node map: a request is an address with the
    order of that range. *)
Definition FindNodesByAddress (requests : list (list (Host * Node) * string)) : list Node :=
  foldl (λ (res : list Node) '(it, addr),
           match FindNodeByAddress it addr with
           | Some node => (res ++ [node])%list
           | None => res
           end)
        [] requests.

(** [StrUniq] is [common.StrUniq], an input. *)
Definition NodeBuilds (StrUniq : list string → list string) (it : list (Host * Node))
    : list string :=
  SortStrings (StrUniq (foldl (λ (builds : list string) node,
                                 (builds ++ [Node.Build node])%list) [] (Nodes it))).

(** [nodeThroughput] is [node.LatestThroughput()], a map from the name of a
    statistic to the points per node address; the points are left abstract.
    The range over a node's map assigns under distinct keys, so its order
    does not matter: for each statistic the node's points are laid over
    those collected so far. *)
Definition LatestThroughput {V : Type} (nodeThroughput : Node → gmap string (gmap string V))
    (it : list (Host * Node)) : gmap string (gmap string V) :=
  foldl (λ (res : gmap string (gmap string V)) node,
           union_with (λ (collected valueMap : gmap string V), Some (valueMap ∪ collected))
             res (nodeThroughput node))
        ∅ (Nodes it).

(** [nodeTime] is [node.ServerTime()], taken to give the same instant at
    both calls of one round; [tm] starts as the zero time. *)
Definition ServerTime (nodeTime : Node → Time) (it : list (Host * Node)) : Time :=
  foldl (λ (tm : Time) node, if (tm <? nodeTime node)%Z then nodeTime node else tm)
        zeroTime (Nodes it).

(** [nodeInfo] is the map built for a node that has the namespace, from the
    accessors of the namespace ([ns.Memory()], [ns.Disk()],
    [ns.StatsAttrs(...)] and the like), which query the node; it is an
    input.  A request is an address with the order of the range that
    [FindNodeByAddress] runs for it. *)
Definition NamespaceInfoPerNode (nodeInfo : Node → Namespace → Stats)
    (ns : string) (requests : list (list (Host * Node) * string)) : gmap string Stats :=
  foldl (λ (res : gmap string Stats) '(it, nodeAddress),
           match FindNodeByAddress it nodeAddress with
           | None => <[nodeAddress := {[ "node_status" := VString "off" ]}]> res
           | Some node =>
             match Node.NamespaceByName node ns with
             | None => <[nodeAddress := {[ "node_status" := VString "off" ]}]> res
             | Some ns => <[nodeAddress := nodeInfo node ns]> res
             end
           end)
        ∅ requests.

(** *** Construction, credentials and the refresh gate *)

(** [id] is the fresh [uuid.NewV4()] and [clientNodes] the nodes of the
    client, each under its host with the [Node] that [newNode] builds for
    it; a [nil] client has none.  The [seeds] go to a field that no function
    modelled here reads, and are left out. *)
Definition newCluster (observer : ObserverT) (client : option Client)
    (clientNodes : list (Host * Node)) (id : string) (alias : option string)
    (user password : string) : ClusterState :=
  let alias :=
    match alias with
    | Some a => if (String.length a =? 0)%nat then None else Some a
    | None => None
    end in
  let newCluster :=
    mkCluster observer client ∅ zeroTime id alias false (NewAlertBucket 50) None None in
  let creds := if String.eqb user "" then (None, None) else (Some user, Some password) in
  let nodes :=
    match client with
    | Some _ => foldl (λ (m : gmap Host Node) '(host, node), <[host := node]> m) ∅ clientNodes
    | None => ∅
    end in
  mkClusterState (set_nodes newCluster nodes) zeroTime
    (AMC_UpdateInterval (config observer)) creds.1 creds.2.

Definition User (s : ClusterState) : option string :=
  match user s with
  | Some u => if String.eqb u "" then None else Some u
  | None => None
  end.

Definition SecurityEnabled (s : ClusterState) : bool :=
  match user s with
  | Some u => (0 <? String.length u)%nat
  | None => false
  end.

(** [ChangePassword] is the call on the database client, an input; a [nil]
    client makes it panic. *)
Definition UpdatePassword (ChangePassword : string → string → error) (s : ClusterState)
    (username currentPass newPass : string) : outcome (ClusterState * error) :=
  if String.eqb currentPass newPass
  then Ret (s, Some "New password cannot be same as current password")
  else if match password s with
          | Some p => negb (String.eqb currentPass p)
          | None => false
          end
  then Ret (s, Some "Invalid current password")
  else if match user s with
          | Some u => negb (String.eqb username u)
          | None => false
          end
  then Ret (s, Some "Invalid current user")
  else
    match client (core s) with
    | None => Panic
    | Some _ =>
      match ChangePassword username newPass with
      | None => Ret (set_password s (Some newPass), None)
      | Some err => Ret (s, Some err)
      end
    end.

Definition UpdateInterval (s : ClusterState) : Z := updateInterval s.

Definition SetUpdateInterval (s : ClusterState) (val : Z) : ClusterState :=
  set_updateInterval s val.

Definition shouldUpdate (now : Time) (s : ClusterState) : bool :=
  (seconds (updateInterval s) <=? time_Since now (lastUpdate s))%Z.

Definition setUpdatedAt (s : ClusterState) (tm : Time) : ClusterState :=
  set_lastUpdate s tm.


End Cluster.

(** ** The server *)

Module Server.

(** The set-up of basic authentication in [Server]: [env_user] and
    [env_password] are [os.Getenv] of [AMC_AUTH_USER] and
    [AMC_AUTH_PASSWORD] (empty when unset), [cfg_user] and [cfg_password]
    the [BasicAuth] section of the configuration.  The result is the
    validator handed to [middleware.BasicAuth], [None] when the middleware
    is not installed. *)
Definition basicAuth (env_user env_password cfg_user cfg_password : string)
    : option (string → string → bool) :=
  let basicAuthUser := if String.eqb env_user "" then cfg_user else env_user in
  let basicAuthPassword :=
    if String.eqb env_password "" then cfg_password else env_password in
  if negb (String.eqb basicAuthUser "")
  then Some (λ username password,
               if String.eqb username basicAuthUser && String.eqb password basicAuthPassword
               then true else false)
  else None.

End Server.

(** ** The properties, in the words of the specification *)

(** A cluster is eligible for auto-removal: it is not permanent, the
    configured [InactiveDurBeforeRemoval] (seconds) is positive, and the time
    elapsed since [lastPing] (nanoseconds) exceeds it. *)
Definition eligible_for_removal (now : Time) (c : Cluster) : Prop :=
  permanent c = false
  ∧ 0 < AMC_InactiveDurBeforeRemoval (config (observer c))
  ∧ AMC_InactiveDurBeforeRemoval (config (observer c)) * Second < now - lastPing c.

(** The [least_available_pct] entry of namespace [ns] in a result of
    [NamespaceInfo]. *)
Definition least_available_pct (res : gmap string (gmap string Value)) (ns : string)
    : option Value :=
  match res !! ns with
  | Some stats => stats !! "least_available_pct"
  | None => None
  end.

(** The value [RequestInfoAll] files under a node: the error text when the
    request failed, else the response to [cmd], empty when there is none. *)
Definition entry_value (cmd : string) (r : nodeCommand) : string :=
  match nc_Err r with
  | Some err => err
  | None => default "" (nc_Res r !! cmd)
  end.

Definition is_SendMail (e : MailEvent) : bool :=
  match e with
  | EvSendMail _ _ _ _ => true
  | _ => false
  end.

(** Number of [SendMail] calls in the events of a goroutine. *)
Definition attempts (tr : list MailEvent) : nat :=
  length (List.filter is_SendMail tr).

(** The nodes of a map are told apart by their pointer and by their
    address: the data model identifies a node by [host:port]. *)
Definition nodes_distinct (m : gmap Host Node) : Prop :=
  ∀ h1 h2 n1 n2, m !! h1 = Some n1 → m !! h2 = Some n2 →
    (node_ptr n1 = node_ptr n2 → n1 = n2)
    ∧ (Node.Address n1 = Node.Address n2 → n1 = n2).

(** The error lists every offending build and the address of every node
    running one: the reading of C8 as it is stated. *)
Definition lists_all_offenders (CompareSimple : string → string → comparison)
    (ns : list Node) (oldest : string) (r : error) : Prop :=
  ∃ msg, r = Some msg
    ∧ ∀ n, n ∈ ns → version_Compare CompareSimple (Node.Build n) oldest "<" = true →
        contains msg (Node.Build n) = true ∧ contains msg (Node.Address n) = true.

(** Every value of the result is the node's response to [cmd] or the empty
    string: the reading of C7 as it is stated. *)
Definition response_or_empty (cmd : string) (ch : list nodeCommand)
    (res : gmap positive string) : Prop :=
  ∀ r v, r ∈ ch → res !! node_ptr (nc_Node r) = Some v →
         v = default "" (nc_Res r !! cmd) ∨ v = "".

(** ** Worked inputs *)

(** A cluster of two nodes, A (off, build 4.5.1) and B (on, build 4.4.0),
    with a mailer host configured and eviction after 60 seconds. *)

Definition ex_config : Config := mkConfig 5 60 "smtp.example.com".

Definition ex_node (p : positive) (h : string) (st : NodeStatus) (b : string)
    (ns : gmap string Namespace) : Node :=
  mkNode p (NewHost h 3000) st b "" ns.

(** Node A reports [available_pct = 50] for namespace [test]; node B has
    the namespace but reports no [available_pct]. *)
Definition ex_nodeA : Node :=
  ex_node 1 "A" Off "4.5.1"
    {[ "test" := mkNamespace {[ "available_pct" := VFloat 50%float ]} ]}.

Definition ex_nodeB : Node :=
  ex_node 2 "B" On "4.4.0" {[ "test" := mkNamespace {[ "objects" := VInt 3 ]} ]}.

Definition ex_cluster : Cluster :=
  mkCluster (mkObserver ex_config) (Some (mkClient true []))
    (<[NewHost "A" 3000 := ex_nodeA]> (<[NewHost "B" 3000 := ex_nodeB]> ∅))
    0 "0b8f4a9e" None false (NewAlertBucket 50) None None.

Definition ex_itAB : list (Host * Node) :=
  [(NewHost "A" 3000, ex_nodeA); (NewHost "B" 3000, ex_nodeB)].

(** The same cluster with a backup and a restore in progress. *)
Definition ex_backup : Backup :=
  mkBackup (NewBackupRestore BackupRestoreTypeBackup "0b8f4a9e" "test" "10.0.0.9"
              "admin" "secret" "/backups" "" false false 2 BackupStatusInProgress).

Definition ex_restore : Restore :=
  mkRestore (NewBackupRestore BackupRestoreTypeRestore "0b8f4a9e" "test" "10.0.0.9"
               "admin" "secret" "/backups" "" false false 2 BackupStatusInProgress)
    4 false false.

Definition ex_busy_cluster : Cluster :=
  set_activeRestore (set_activeBackup ex_cluster (Some ex_backup)) (Some ex_restore).

(** A bucket holding two alerts that were not drained yet. *)
Definition ex_bucket : AlertBucket :=
  AlertBucket_Record
    (AlertBucket_Record (NewAlertBucket 50) "A:3000" "Node is down" "red" 10)
    "B:3000" "Node is up" "green" 20.

(** The worked cluster with pending alerts and no mailer host. *)
Definition ex_silent_cluster : Cluster :=
  mkCluster (mkObserver (mkConfig 5 60 "")) (Some (mkClient true []))
    (nodes ex_cluster) 0 "0b8f4a9e" None false ex_bucket None None.

(** An order of the range over the version list of the worked cluster. *)
Definition ex_vit : list (string * list string) :=
  [("4.5.1", ["A:3000"]); ("4.4.0", ["B:3000"])].

(** A lookup that resolves every name to two addresses, a node as
    [newNode(c, nil)] returns it, and the worked cluster after
    [AddNode] for port 3000. *)
Definition ex_resolve : string → list string * error :=
  λ _, (["10.0.0.5"; "10.0.0.6"], None).

Definition ex_newNode : Node := mkNode 9 (mkHost "" "" 0) On "" "" ∅.

Definition ex_added : Cluster :=
  set_nodes (set_client ex_cluster (Some (mkClient true [NewHost "10.0.0.5" 3000])))
    (<[NewHost "10.0.0.5" 3000 := Node.setOrigHost ex_newNode (NewHost "10.0.0.5" 3000)]>
       (nodes ex_cluster)).

(** The channel after B answered and the request to A failed. *)
Definition ex_channel : list nodeCommand :=
  [mkNodeCommand ex_nodeB {[ "build" := "4.4.0" ]} None;
   mkNodeCommand ex_nodeA ∅ (Some "timeout")].

(** ** Notions used by the further properties *)

(** The addresses of the nodes of a node map. *)
Definition addresses (m : gmap Host Node) : list string :=
  Node.Address <$> (map_to_list m).*2.

(** The point of statistic [stat] for the node address [addr] in a
    throughput map. *)
Definition point {V : Type} (m : gmap string (gmap string V)) (stat addr : string)
    : option V :=
  match m !! stat with
  | Some valueMap => valueMap !! addr
  | None => None
  end.

(** The number of addresses listed in a version list, all builds
    together. *)
Definition listed (versionList : gmap string (list string)) : nat :=
  sum_list (length <$> (map_to_list versionList).*2).

(** The time slept in the events of a goroutine. *)
Definition slept (tr : list MailEvent) : Duration :=
  foldr (λ e z, match e with EvSleep d => d + z | _ => z end) 0 tr.

(** [common.StrUniq] keeps one copy of each string. *)
Definition keeps_one_of_each (StrUniq : list string → list string) : Prop :=
  ∀ l, NoDup (StrUniq l) ∧ ∀ x, x ∈ StrUniq l ↔ x ∈ l.

(** The worked cluster with credentials, refreshed every 5 seconds and
    last refreshed at instant 0. *)
Definition ex_state : ClusterState :=
  mkClusterState ex_cluster 0 5 (Some "admin") (Some "secret").

(** * Theorems *)

(** ** Arithmetic of durations *)

Lemma seconds_small (n : Z) :
  0 <= n <= 9223372036 → seconds n = n * Second.
Proof.
  intros Hn. unfold seconds, wrap64, Second.
  replace (2 ^ 63) with 9223372036854775808 by reflexivity.
  replace (2 ^ 64) with 18446744073709551616 by reflexivity.
  rewrite Z.mod_small by lia. lia.
Qed.

Lemma time_Since_cases (now t : Z) :
  (time_Since now t = now - t ∧ -9223372036854775808 <= now - t <= 9223372036854775807)
  ∨ (time_Since now t = 9223372036854775807 ∧ 9223372036854775807 < now - t)
  ∨ (time_Since now t = -9223372036854775808 ∧ now - t < -9223372036854775808).
Proof.
  unfold time_Since, time_Sub, sat64, int64_min, int64_max.
  replace (2 ^ 63) with 9223372036854775808 by reflexivity. lia.
Qed.

(** ** Auto-removal *)

(** C2, as amended.  A permanent cluster is never eligible.  When the
    configured [InactiveDurBeforeRemoval] is at most 9223372036 seconds, so
    that its count of nanoseconds fits the 64-bit [Duration],
    [shouldAutoRemove] holds exactly when the cluster is not permanent, the
    option is positive and the time since [lastPing] exceeds it. *)
Theorem shouldAutoRemove_eligible (now : Z) (c : Cluster) :
  (permanent c = true → Cluster.shouldAutoRemove now c = false)
  ∧ (AMC_InactiveDurBeforeRemoval (config (observer c)) <= 9223372036 →
     (Cluster.shouldAutoRemove now c = true ↔ eligible_for_removal now c)).
Proof.
  unfold Cluster.shouldAutoRemove, eligible_for_removal.
  set (d := AMC_InactiveDurBeforeRemoval (config (observer c))).
  split.
  - intros ->. reflexivity.
  - intros Hd. destruct (permanent c); simpl.
    + split; [discriminate | intros [? _]; discriminate].
    + destruct (Z.ltb_spec 0 d) as [Hpos | Hneg]; simpl.
      * rewrite seconds_small by lia. rewrite Z.ltb_lt.
        destruct (time_Since_cases now (lastPing c)) as [[-> ?] | [[-> ?] | [-> ?]]];
          unfold Second in *; split; try (intros (_ & _ & ?)); try intros ?;
          repeat split; try lia.
      * split; [discriminate | intros (_ & ? & _); lia].
Qed.

Lemma shouldAutoRemove_eligible_witness :
  AMC_InactiveDurBeforeRemoval (config (observer ex_cluster)) <= 9223372036
  ∧ (Cluster.shouldAutoRemove 61000000000 ex_cluster = true
     ↔ eligible_for_removal 61000000000 ex_cluster).
Proof.
  split.
  - vm_compute. discriminate.
  - apply (shouldAutoRemove_eligible 61000000000 ex_cluster). vm_compute. discriminate.
Defined.

(** C2, as stated, fails where the threshold does not fit a [Duration]:
    with [InactiveDurBeforeRemoval = 9223372037] the product
    [time.Duration(9223372037) * time.Second] wraps to a negative duration,
    and a cluster pinged one second ago is removed although one second does
    not exceed 9223372037 seconds. *)
Lemma shouldAutoRemove_overflow :
  let c := mkCluster (mkObserver (mkConfig 5 9223372037 "")) None ∅
             0 "0b8f4a9e" None false (NewAlertBucket 50) None None in
  Cluster.shouldAutoRemove 1000000000 c = true
  ∧ ¬ eligible_for_removal 1000000000 c.
Proof.
  split.
  - vm_compute. reflexivity.
  - intros (_ & _ & H). vm_compute in H. discriminate.
Qed.

(** ** Backup and restore *)

(** C4.  While the active backup (restore) is in progress, [Backup]
    ([Restore]) returns no handle and an error and leaves the cluster as it
    was, so [CurrentBackup] ([CurrentRestore]) still returns the handle that
    is in progress. *)
Theorem Backup_Restore_in_progress_rejected (c : Cluster) :
  (∀ b Save Execute ns da dp u p sets mo toc sp,
     activeBackup c = Some b →
     BR_Status (Backup_BackupRestore b) = BackupStatusInProgress →
     ∃ err,
       Cluster.Backup Save Execute c ns da dp u p sets mo toc sp = (c, (None, Some err))
       ∧ Cluster.CurrentBackup
           (Cluster.Backup Save Execute c ns da dp u p sets mo toc sp).1 = Some b)
  ∧ (∀ r Save Execute ns da dp u p th mr ig,
       activeRestore c = Some r →
       BR_Status (Restore_BackupRestore r) = BackupStatusInProgress →
       ∃ err,
         Cluster.Restore Save Execute c ns da dp u p th mr ig = (c, (None, Some err))
         ∧ Cluster.CurrentRestore
             (Cluster.Restore Save Execute c ns da dp u p th mr ig).1 = Some r).
Proof.
  split.
  - intros b Save Execute ns da dp u p sets mo toc sp Hb Hst.
    unfold Cluster.Backup, Cluster.CurrentBackup. rewrite Hb, Hst.
    rewrite bool_decide_eq_true_2 by reflexivity. eauto.
  - intros r Save Execute ns da dp u p th mr ig Hr Hst.
    unfold Cluster.Restore, Cluster.CurrentRestore. rewrite Hr, Hst.
    rewrite bool_decide_eq_true_2 by reflexivity. eauto.
Qed.

Lemma Backup_Restore_in_progress_rejected_witness :
  (activeBackup ex_busy_cluster = Some ex_backup
   ∧ BR_Status (Backup_BackupRestore ex_backup) = BackupStatusInProgress
   ∧ ∃ err,
       Cluster.Backup (λ _, None) (λ _, None) ex_busy_cluster
         "bar" "10.0.0.7" "/tmp" "admin" "secret" "" false false 2
       = (ex_busy_cluster, (None, Some err))
       ∧ Cluster.CurrentBackup
           (Cluster.Backup (λ _, None) (λ _, None) ex_busy_cluster
              "bar" "10.0.0.7" "/tmp" "admin" "secret" "" false false 2).1
         = Some ex_backup)
  ∧ (activeRestore ex_busy_cluster = Some ex_restore
     ∧ BR_Status (Restore_BackupRestore ex_restore) = BackupStatusInProgress
     ∧ ∃ err,
         Cluster.Restore (λ _, None) (λ _, None) ex_busy_cluster
           "bar" "10.0.0.7" "/tmp" "admin" "secret" 8 false false
         = (ex_busy_cluster, (None, Some err))
         ∧ Cluster.CurrentRestore
             (Cluster.Restore (λ _, None) (λ _, None) ex_busy_cluster
                "bar" "10.0.0.7" "/tmp" "admin" "secret" 8 false false).1
           = Some ex_restore).
Proof.
  split.
  - split; [reflexivity | split; [reflexivity |]].
    apply (proj1 (Backup_Restore_in_progress_rejected ex_busy_cluster)); reflexivity.
  - split; [reflexivity | split; [reflexivity |]].
    apply (proj2 (Backup_Restore_in_progress_rejected ex_busy_cluster)); reflexivity.
Defined.

(** When no backup is in progress the new handle replaces the old one. *)
Lemma Backup_starts (c : Cluster) Save Execute ns da dp u p sets mo toc sp :
  (∀ b, activeBackup c = Some b →
        BR_Status (Backup_BackupRestore b) ≠ BackupStatusInProgress) →
  (∀ b, Save b = None) →
  ∃ b, Cluster.CurrentBackup
         (Cluster.Backup Save Execute c ns da dp u p sets mo toc sp).1 = Some b
       ∧ BR_Status (Backup_BackupRestore b) = BackupStatusInProgress
       ∧ BR_Namespace (Backup_BackupRestore b) = ns.
Proof.
  intros Hidle Hsave. unfold Cluster.Backup.
  destruct (activeBackup c) as [b0 |] eqn:Hb.
  - rewrite bool_decide_eq_false_2 by (apply Hidle; reflexivity).
    rewrite Hsave. simpl. eauto.
  - rewrite Hsave. simpl. eauto.
Qed.

(** ** Mail notifications *)

Section Delivery.

Variable SendMail : Mailer.
Variable subject : string.
Variable context : gmap string string.

Lemma deliver_from_attempts (i left : nat) :
  (attempts (Cluster.deliver_from SendMail subject context i left) <= left)%nat.
Proof.
  revert i. induction left as [| left IH]; intros i; simpl.
  - reflexivity.
  - destruct (SendMail _ _ _ i); unfold attempts in *; simpl.
    + specialize (IH (S i)). lia.
    + lia.
Qed.

Lemma deliver_from_success_last (i left : nat) pre t s ctx post :
  Cluster.deliver_from SendMail subject context i left
    = (pre ++ EvSendMail t s ctx None :: post)%list →
  post = [].
Proof.
  revert i pre. induction left as [| left IH]; intros i pre; simpl.
  - destruct pre; discriminate.
  - destruct (SendMail _ _ _ i) as [err |].
    + destruct pre as [| e1 [| e2 [| e3 pre]]]; simpl; try discriminate.
      intros H. injection H as _ _ _ H. eapply IH, H.
    + destruct pre as [| e1 pre]; simpl.
      * intros H. injection H as _ _ _ H. symmetry. exact H.
      * destruct pre; discriminate.
Qed.

(** The number of attempts when the call number [k] is the first to
    succeed. *)
Lemma deliver_from_first_success (i left k : nat) :
  (k < left)%nat →
  (∀ j, (j < k)%nat → SendMail "alerts/generic.html" subject context (i + j) ≠ None) →
  SendMail "alerts/generic.html" subject context (i + k) = None →
  attempts (Cluster.deliver_from SendMail subject context i left) = S k.
Proof.
  revert i k. induction left as [| left IH]; intros i k Hk Hfail Hok; [lia |].
  simpl. destruct k as [| k].
  - rewrite Nat.add_0_r in Hok. rewrite Hok. reflexivity.
  - destruct (SendMail _ _ _ i) as [err |] eqn:Hi.
    + unfold attempts in *. simpl. f_equal. apply IH; [lia | |].
      * intros j Hj. replace (S i + j)%nat with (i + S j)%nat by lia. apply Hfail. lia.
      * replace (S i + k)%nat with (i + S k)%nat by lia. exact Hok.
    + exfalso. apply (Hfail 0%nat); [lia |]. rewrite Nat.add_0_r. exact Hi.
Qed.

(** When every call fails the loop stops after the fifth. *)
Lemma deliver_from_all_fail (i left : nat) :
  (∀ j, SendMail "alerts/generic.html" subject context j ≠ None) →
  attempts (Cluster.deliver_from SendMail subject context i left) = left.
Proof.
  intros Hfail. revert i. induction left as [| left IH]; intros i; simpl; [reflexivity |].
  destruct (SendMail _ _ _ i) as [err |] eqn:Hi.
  - unfold attempts in *. simpl. f_equal. apply IH.
  - exfalso. exact (Hfail i Hi).
Qed.

End Delivery.

(** C9.  Each goroutine started by [SendEmailNotifications] calls
    [SendMail] at most five times and does nothing after a call that
    succeeded; there is at most one goroutine per drained alert; with no
    mailer host configured no goroutine is started. *)
Theorem SendEmailNotifications_bounded_retry (SendMail : Mailer)
    (sanitizeHTML : string → string) (it : list (Host * Node)) (c : Cluster) :
  Forall (λ tr, (attempts tr <= 5)%nat
                ∧ ∀ pre t s ctx post,
                    tr = (pre ++ EvSendMail t s ctx None :: post)%list → post = [])
    (Cluster.SendEmailNotifications SendMail sanitizeHTML it c).2
  ∧ (length (Cluster.SendEmailNotifications SendMail sanitizeHTML it c).2
       <= length (DrainNewAlerts (alerts c)).1)%nat
  ∧ (Mailer_Host (config (observer c)) = "" →
     (Cluster.SendEmailNotifications SendMail sanitizeHTML it c).2 = []).
Proof.
  unfold Cluster.SendEmailNotifications.
  destruct (DrainNewAlerts (alerts c)) as [newAlerts bucket]. simpl.
  destruct (String.length (Mailer_Host (config (observer c))) =? 0)%nat eqn:Hhost; simpl.
  - split; [constructor | split; [lia | reflexivity]].
  - split; [| split].
    + apply Forall_fmap, Forall_forall. intros alert _. simpl. split.
      * apply deliver_from_attempts.
      * intros pre t s ctx post H. eapply deliver_from_success_last, H.
    + rewrite length_fmap. reflexivity.
    + intros Hempty. rewrite Hempty in Hhost. discriminate.
Qed.

Lemma SendEmailNotifications_bounded_retry_witness :
  Mailer_Host (config (observer ex_silent_cluster)) = ""
  ∧ (Cluster.SendEmailNotifications (λ _ _ _ _, Some "refused") id ex_itAB
       ex_silent_cluster).2 = [].
Proof.
  split; [reflexivity |].
  apply (SendEmailNotifications_bounded_retry (λ _ _ _ _, Some "refused") id ex_itAB
           ex_silent_cluster).
  reflexivity.
Defined.

(** With a host configured and a transport that fails twice, each of the
    two pending alerts is sent three times. *)
Example SendEmailNotifications_three_attempts :
  attempts <$>
    (Cluster.SendEmailNotifications
       (λ _ _ _ i, if (i <? 2)%nat then Some "refused" else None) id ex_itAB
       (set_alerts ex_cluster ex_bucket)).2
  = [3%nat; 3%nat].
Proof. vm_compute. reflexivity. Qed.

(** With a host configured there is one goroutine per drained alert. *)
Lemma SendEmailNotifications_one_per_alert (SendMail : Mailer)
    (sanitizeHTML : string → string) (it : list (Host * Node)) (c : Cluster) :
  Mailer_Host (config (observer c)) ≠ "" →
  length (Cluster.SendEmailNotifications SendMail sanitizeHTML it c).2
  = length (DrainNewAlerts (alerts c)).1.
Proof.
  intros Hhost. unfold Cluster.SendEmailNotifications.
  destruct (DrainNewAlerts (alerts c)) as [newAlerts bucket]. simpl.
  destruct (Mailer_Host (config (observer c))) as [| a s]; [contradiction |].
  simpl. apply length_fmap.
Qed.

(** *** Draining *)

Lemma DrainNewAlerts_new (b : AlertBucket) (a : Alert) :
  In a (DrainNewAlerts b).1 ↔ In a (bucket_alerts b) ∧ bucket_cursor b < Alert_Id a.
Proof.
  unfold DrainNewAlerts. simpl. rewrite filter_In, Z.ltb_lt. reflexivity.
Qed.

Lemma foldr_max_ge (l : list Alert) (z : Z) :
  z <= foldr (λ a m, Z.max (Alert_Id a) m) z l
  ∧ ∀ a, In a l → Alert_Id a <= foldr (λ a m, Z.max (Alert_Id a) m) z l.
Proof.
  induction l as [| x l [IH1 IH2]]; simpl.
  - split; [lia | intros a []].
  - split; [lia |]. intros a [-> | Ha]; [lia |]. specialize (IH2 a Ha). lia.
Qed.

(** The cursor only moves forward, past every alert returned. *)
Lemma DrainNewAlerts_cursor (b : AlertBucket) :
  bucket_cursor b <= bucket_cursor (DrainNewAlerts b).2
  ∧ ∀ a, In a (DrainNewAlerts b).1 → Alert_Id a <= bucket_cursor (DrainNewAlerts b).2.
Proof. unfold DrainNewAlerts. simpl. apply foldr_max_ge. Qed.

Lemma DrainNewAlerts_alerts (b : AlertBucket) :
  bucket_alerts (DrainNewAlerts b).2 = bucket_alerts b.
Proof. reflexivity. Qed.

(** Two drains in a row: the second returns nothing. *)
Lemma DrainNewAlerts_twice (b : AlertBucket) :
  (DrainNewAlerts (DrainNewAlerts b).2).1 = [].
Proof.
  destruct (DrainNewAlerts (DrainNewAlerts b).2).1 as [| a l] eqn:E; [reflexivity |].
  assert (Ha : In a (DrainNewAlerts (DrainNewAlerts b).2).1) by (rewrite E; left; reflexivity).
  apply DrainNewAlerts_new in Ha as [Hin Hlt]. rewrite DrainNewAlerts_alerts in Hin.
  destruct (DrainNewAlerts_cursor b) as [Hc Hnew].
  destruct (Z.lt_ge_cases (bucket_cursor b) (Alert_Id a)) as [Hnewer | Holder].
  - specialize (Hnew a (proj2 (DrainNewAlerts_new b a) (conj Hin Hnewer))). lia.
  - lia.
Qed.

(** C10.  [SendEmailNotifications] drains the bucket whether or not a
    mailer host is configured: the bucket it leaves is the drained one.
    With no host configured nothing is sent, and the alerts that were
    pending are consumed: a drain right after returns nothing, and no later
    drain of the bucket, whose cursor never moves back, returns any of
    them. *)
Theorem SendEmailNotifications_drains_first (SendMail : Mailer)
    (sanitizeHTML : string → string) (it : list (Host * Node)) (c : Cluster) :
  alerts (Cluster.SendEmailNotifications SendMail sanitizeHTML it c).1
    = (DrainNewAlerts (alerts c)).2
  ∧ (Mailer_Host (config (observer c)) = "" →
     (Cluster.SendEmailNotifications SendMail sanitizeHTML it c).2 = []
     ∧ (DrainNewAlerts
          (alerts (Cluster.SendEmailNotifications SendMail sanitizeHTML it c).1)).1 = []
     ∧ ∀ later : AlertBucket,
         bucket_cursor (alerts (Cluster.SendEmailNotifications SendMail sanitizeHTML it c).1)
           <= bucket_cursor later →
         ∀ a, In a (DrainNewAlerts (alerts c)).1 → ¬ In a (DrainNewAlerts later).1).
Proof.
  assert (Hb : alerts (Cluster.SendEmailNotifications SendMail sanitizeHTML it c).1
               = (DrainNewAlerts (alerts c)).2).
  { unfold Cluster.SendEmailNotifications.
    destruct (DrainNewAlerts (alerts c)) as [newAlerts bucket]. simpl.
    destruct (String.length _ =? 0)%nat; reflexivity. }
  split; [exact Hb |]. intros Hhost. rewrite Hb. split; [| split].
  - unfold Cluster.SendEmailNotifications.
    destruct (DrainNewAlerts (alerts c)) as [newAlerts bucket]. simpl.
    rewrite Hhost. reflexivity.
  - apply DrainNewAlerts_twice.
  - intros later Hcur a Ha Hlater.
    apply DrainNewAlerts_new in Hlater as [_ Hlt].
    destruct (DrainNewAlerts_cursor (alerts c)) as [_ Hnew].
    specialize (Hnew a Ha). lia.
Qed.

Lemma SendEmailNotifications_drains_first_witness :
  Mailer_Host (config (observer ex_silent_cluster)) = ""
  ∧ length (DrainNewAlerts (alerts ex_silent_cluster)).1 = 2%nat
  ∧ (Cluster.SendEmailNotifications (λ _ _ _ _, None) id ex_itAB ex_silent_cluster).2 = []
  ∧ (DrainNewAlerts
       (alerts (Cluster.SendEmailNotifications (λ _ _ _ _, None) id ex_itAB
                  ex_silent_cluster).1)).1 = [].
Proof.
  split; [reflexivity | split; [reflexivity |]].
  pose proof (proj2 (SendEmailNotifications_drains_first (λ _ _ _ _, None) id ex_itAB
                       ex_silent_cluster) eq_refl) as (H1 & H2 & _).
  split; [exact H1 | exact H2].
Defined.

(** ** Builds *)

Lemma versionList_fold_lookup (ns : list Node) (m : gmap string (list string)) (b : string) :
  foldl (λ (m : gmap string (list string)) node,
           <[Node.Build node :=
               (default [] (m !! Node.Build node) ++ [Node.Address node])%list]> m) m ns
    !! b
  = match Node.Address <$> filter (λ n, Node.Build n = b) ns with
    | [] => m !! b
    | l => Some (default [] (m !! b) ++ l)%list
    end.
Proof.
  revert m. induction ns as [| n ns IH]; intros m; [reflexivity |].
  simpl foldl. rewrite IH. clear IH. destruct (decide (Node.Build n = b)) as [Hb | Hb].
  - rewrite filter_cons_True by exact Hb. rewrite fmap_cons, Hb, lookup_insert_eq.
    destruct (Node.Address <$> filter (λ n0, Node.Build n0 = b) ns) as [| a l].
    + reflexivity.
    + simpl. rewrite <- app_assoc. reflexivity.
  - rewrite filter_cons_False by exact Hb. rewrite lookup_insert_ne by exact Hb.
    reflexivity.
Qed.

(** The entry of a build lists the addresses of the nodes running it, in
    the order of the range. *)
Lemma versionList_of_lookup (ns : list Node) (b : string) :
  Cluster.versionList_of ns !! b
  = match Node.Address <$> filter (λ n, Node.Build n = b) ns with
    | [] => None
    | l => Some l
    end.
Proof.
  unfold Cluster.versionList_of. rewrite versionList_fold_lookup, lookup_empty.
  destruct (Node.Address <$> _); reflexivity.
Qed.

Lemma versionList_of_is_Some (ns : list Node) (b : string) :
  is_Some (Cluster.versionList_of ns !! b) ↔ ∃ n, n ∈ ns ∧ Node.Build n = b.
Proof.
  rewrite versionList_of_lookup.
  destruct (filter (λ n, Node.Build n = b) ns) as [| n l] eqn:E; simpl.
  - split; [intros [? ?]; discriminate |].
    intros (n & Hn & Hb). assert (n ∈ filter (λ n, Node.Build n = b) ns) as Hin
      by (apply list_elem_of_filter; auto).
    rewrite E in Hin. inversion Hin.
  - split; [| eauto]. intros _. exists n.
    assert (n ∈ filter (λ n, Node.Build n = b) ns) as Hin by (rewrite E; left).
    apply list_elem_of_filter in Hin as [? ?]. auto.
Qed.

Lemma versionList_of_dom (ns : list Node) :
  dom (Cluster.versionList_of ns) = (list_to_set (Node.Build <$> ns) : gset string).
Proof.
  apply set_eq. intros b.
  rewrite elem_of_dom, versionList_of_is_Some, elem_of_list_to_set, list_elem_of_fmap.
  split; intros (n & H1 & H2); exists n; auto.
Qed.

(** C3.  [NodeCompatibility] answers [homogeneous] exactly when the nodes
    report at most one distinct build (none, when there is no node), and
    [compatible] exactly when they report more. *)
Theorem NodeCompatibility_distinct_builds (it : list (Host * Node)) :
  (Cluster.NodeCompatibility it = "homogeneous"
   ↔ (size (list_to_set (Node.Build <$> Cluster.Nodes it) : gset string) <= 1)%nat)
  ∧ (Cluster.NodeCompatibility it = "compatible"
     ↔ (1 < size (list_to_set (Node.Build <$> Cluster.Nodes it) : gset string))%nat).
Proof.
  unfold Cluster.NodeCompatibility.
  rewrite <- versionList_of_dom, size_dom.
  destruct (Nat.leb_spec (size (Cluster.versionList_of (Cluster.Nodes it))) 1).
  - split; split; try discriminate; intros; try reflexivity; lia.
  - split; split; try discriminate; intros; try reflexivity; lia.
Qed.

Example NodeCompatibility_no_node : Cluster.NodeCompatibility [] = "homogeneous".
Proof. reflexivity. Qed.

Example NodeCompatibility_two_builds : Cluster.NodeCompatibility ex_itAB = "compatible".
Proof. vm_compute. reflexivity. Qed.

(** ** Version gating *)

Section VersionSupported.

Variable CompareSimple : string → string → comparison.

Lemma version_Compare_ge_lt (a b : string) :
  version_Compare CompareSimple a b ">=" = negb (version_Compare CompareSimple a b "<").
Proof. unfold version_Compare. simpl. destruct (CompareSimple a b); reflexivity. Qed.

Variable now : Z.
Variable it : list (Host * Node).
Variable vit : list (string * list string).
Variable c : Cluster.
Variable oldest : string.

(** [vit] is an order in which the range over the version list can run. *)
Hypothesis vit_range : range_of (Cluster.versionList_of (Cluster.Nodes it)) vit.

Lemma vit_entry (ver : string) (nodeList : list string) :
  In (ver, nodeList) vit ↔
  Cluster.versionList_of (Cluster.Nodes it) !! ver = Some nodeList.
Proof.
  rewrite <- elem_of_map_to_list, <- list_elem_of_In.
  unfold range_of in vit_range. rewrite vit_range. reflexivity.
Qed.

(** C8, as amended.  When every observed build compares greater than or
    equal to [oldest], [versionSupported] returns [nil].  Otherwise it
    returns the error for one offending build, the first that the range over
    the version list meets, and that error names [oldest], the build, and
    the addresses of all the nodes running that build. *)
Theorem versionSupported_result :
  ((∀ n, n ∈ Cluster.Nodes it →
         version_Compare CompareSimple (Node.Build n) oldest ">=" = true) →
   (Cluster.versionSupported CompareSimple now it vit c oldest).2 = None)
  ∧ ((∃ n, n ∈ Cluster.Nodes it
           ∧ version_Compare CompareSimple (Node.Build n) oldest ">=" = false) →
     ∃ ver,
       ver ∈ Node.Build <$> Cluster.Nodes it
       ∧ version_Compare CompareSimple ver oldest "<" = true
       ∧ (Cluster.versionSupported CompareSimple now it vit c oldest).2
         = Some (Cluster.unsupported_error oldest
                   (Node.Address <$> filter (λ n, Node.Build n = ver) (Cluster.Nodes it))
                   ver)).
Proof.
  unfold Cluster.versionSupported. simpl.
  destruct (List.find (λ '(ver, _), version_Compare CompareSimple ver oldest "<") vit)
    as [[ver nodeList] |] eqn:Hfind; simpl.
  - apply find_some in Hfind as [Hin Hlt]. apply vit_entry in Hin.
    assert (Hsome : is_Some (Cluster.versionList_of (Cluster.Nodes it) !! ver)) by eauto.
    apply versionList_of_is_Some in Hsome as (n & Hn & Hb).
    split.
    + intros Hall. specialize (Hall n Hn).
      rewrite version_Compare_ge_lt, Hb, Hlt in Hall. discriminate.
    + intros _. exists ver. split; [| split; [exact Hlt |]].
      * apply list_elem_of_fmap. eauto.
      * rewrite versionList_of_lookup in Hin.
        destruct (Node.Address <$> filter (λ n0, Node.Build n0 = ver) (Cluster.Nodes it));
          [discriminate |].
        injection Hin as <-. reflexivity.
  - split; [reflexivity |]. intros (n & Hn & Hge).
    assert (Hsome : is_Some (Cluster.versionList_of (Cluster.Nodes it) !! Node.Build n))
      by (apply versionList_of_is_Some; eauto).
    destruct Hsome as [nodeList Hl]. apply vit_entry in Hl.
    apply (find_none _ _ Hfind) in Hl. simpl in Hl.
    rewrite version_Compare_ge_lt, Hl in Hge. discriminate.
Qed.

End VersionSupported.

Lemma ex_vit_range : range_of (Cluster.versionList_of (Cluster.Nodes ex_itAB)) ex_vit.
Proof. unfold range_of. vm_compute. reflexivity. Qed.

Lemma versionSupported_result_witness :
  range_of (Cluster.versionList_of (Cluster.Nodes ex_itAB)) ex_vit
  ∧ (∃ n, n ∈ Cluster.Nodes ex_itAB
          ∧ version_Compare dotted_compare (Node.Build n) "4.6.0" ">=" = false)
  ∧ ∃ ver,
      ver ∈ Node.Build <$> Cluster.Nodes ex_itAB
      ∧ version_Compare dotted_compare ver "4.6.0" "<" = true
      ∧ (Cluster.versionSupported dotted_compare 7 ex_itAB ex_vit ex_cluster "4.6.0").2
        = Some (Cluster.unsupported_error "4.6.0"
                  (Node.Address <$> filter (λ n, Node.Build n = ver) (Cluster.Nodes ex_itAB))
                  ver).
Proof.
  assert (Hoff : ∃ n, n ∈ Cluster.Nodes ex_itAB
                      ∧ version_Compare dotted_compare (Node.Build n) "4.6.0" ">=" = false).
  { exists ex_nodeA. split; [left | vm_compute; reflexivity]. }
  split; [exact ex_vit_range | split; [exact Hoff |]].
  exact (proj2 (versionSupported_result dotted_compare 7 ex_itAB ex_vit ex_cluster "4.6.0"
                  ex_vit_range) Hoff).
Defined.

(** C8, as stated, fails when two distinct builds offend: with node A at
    4.5.1, node B at 4.4.0 and [oldest = 4.6.0], a range that meets 4.5.1
    first yields an error that names neither 4.4.0 nor node B. *)
Lemma versionSupported_names_one_build :
  range_of (Cluster.versionList_of (Cluster.Nodes ex_itAB)) ex_vit
  ∧ (Cluster.versionSupported dotted_compare 7 ex_itAB ex_vit ex_cluster "4.6.0").2
    = Some "Database cluster is not supported. Latest supported version is: `v4.6.0`. Nodes [A:3000] are at `v4.5.1`"
  ∧ ¬ lists_all_offenders dotted_compare (Cluster.Nodes ex_itAB) "4.6.0"
        (Cluster.versionSupported dotted_compare 7 ex_itAB ex_vit ex_cluster "4.6.0").2.
Proof.
  split; [exact ex_vit_range | split; [vm_compute; reflexivity |]].
  intros (msg & Hmsg & Hall).
  assert (HB : ex_nodeB ∈ Cluster.Nodes ex_itAB) by (right; left).
  destruct (Hall ex_nodeB HB) as [_ Haddr]; [vm_compute; reflexivity |].
  vm_compute in Hmsg. injection Hmsg as <-. vm_compute in Haddr. discriminate.
Qed.

(** The worked scenario of the specification: builds 4.5.1, 4.5.1 and
    4.6.0; the error names the two nodes at 4.5.1. *)
Example versionSupported_scenario :
  let n1 := ex_node 1 "10.0.0.1" On "4.5.1" ∅ in
  let n2 := ex_node 2 "10.0.0.2" On "4.5.1" ∅ in
  let n3 := ex_node 3 "10.0.0.3" On "4.6.0" ∅ in
  let it := [(origHost n1, n1); (origHost n2, n2); (origHost n3, n3)] in
  Cluster.NodeCompatibility it = "compatible"
  ∧ (Cluster.versionSupported dotted_compare 7 it
       [("4.6.0", ["10.0.0.3:3000"]); ("4.5.1", ["10.0.0.1:3000"; "10.0.0.2:3000"])]
       ex_cluster "4.6.0").2
    = Some "Database cluster is not supported. Latest supported version is: `v4.6.0`. Nodes [10.0.0.1:3000, 10.0.0.2:3000] are at `v4.5.1`".
Proof. vm_compute. split; reflexivity. Qed.

(** ** The node map *)

Lemma range_of_entry {A : Type} (m : gmap Host A) (it : list (Host * A)) (h : Host) (x : A) :
  range_of m it → ((h, x) ∈ it ↔ m !! h = Some x).
Proof.
  unfold range_of. intros Hit. rewrite Hit. apply elem_of_map_to_list.
Qed.

Lemma range_of_NoDup {A : Type} (m : gmap Host A) (it : list (Host * A)) :
  range_of m it → NoDup it.*1.
Proof.
  unfold range_of. intros Hit. rewrite Hit. apply NoDup_fst_map_to_list.
Qed.

(** [c.Nodes()] returns the values of the node map. *)
Lemma range_of_Nodes (m : gmap Host Node) (it : list (Host * Node)) (n : Node) :
  range_of m it → (n ∈ Cluster.Nodes it ↔ ∃ h, m !! h = Some n).
Proof.
  intros Hit. unfold Cluster.Nodes. rewrite list_elem_of_fmap. split.
  - intros ([h n'] & -> & Hin). exists h. apply (range_of_entry m it); assumption.
  - intros (h & Hh). exists (h, n). split; [reflexivity |].
    apply (range_of_entry m it); assumption.
Qed.

Lemma FindNodeByAddress_Some (it : list (Host * Node)) (address : string) (n : Node) :
  Cluster.FindNodeByAddress it address = Some n →
  n ∈ Cluster.Nodes it ∧ Node.Address n = address.
Proof.
  unfold Cluster.FindNodeByAddress. intros H. apply find_some in H as [Hin Heq].
  split; [apply list_elem_of_In, Hin | apply String.eqb_eq, Heq].
Qed.

Lemma FindNodeByAddress_None (it : list (Host * Node)) (address : string) :
  Cluster.FindNodeByAddress it address = None →
  ∀ n, n ∈ Cluster.Nodes it → Node.Address n ≠ address.
Proof.
  unfold Cluster.FindNodeByAddress. intros H n Hin Heq.
  apply list_elem_of_In in Hin. apply (find_none _ _ H) in Hin.
  apply String.eqb_neq in Hin. contradiction.
Qed.

(** The map rebuilt by [RemoveNodeByAddress] keeps the entries whose node
    is not the one removed. *)
Lemma rebuilt_lookup (p : positive) (l : list (Host * Node)) (h : Host) (n : Node) :
  NoDup l.*1 →
  (foldl (λ (m : gmap Host Node) '(host, oldNode),
            if bool_decide (p ≠ node_ptr oldNode) then <[host := oldNode]> m else m) ∅ l
     !! h = Some n
   ↔ (h, n) ∈ l ∧ p ≠ node_ptr n).
Proof.
  induction l as [| [h0 n0] l IH] using rev_ind; intros Hnd.
  - simpl. rewrite lookup_empty. split; [discriminate | intros [H _]; inversion H].
  - rewrite fmap_app in Hnd. apply NoDup_app in Hnd as (Hl & Hfresh & _).
    specialize (IH Hl). rewrite foldl_app. simpl.
    rewrite elem_of_app, list_elem_of_singleton.
    case_bool_decide as Hp.
    + destruct (decide (h0 = h)) as [-> | Hne].
      * rewrite lookup_insert_eq. split.
        -- intros [= ->]. split; [right; reflexivity | exact Hp].
        -- intros [[Hin | [= ->]] _]; [| reflexivity].
           exfalso. apply (Hfresh h); [| simpl; left].
           apply list_elem_of_fmap. exists (h, n). auto.
      * rewrite lookup_insert_ne by exact Hne. rewrite IH. split.
        -- intros [? ?]. auto.
        -- intros [[Hin | [= -> _]] ?]; [auto | contradiction].
    + rewrite IH. split.
      * intros [? ?]. auto.
      * intros [[Hin | [= _ ->]] ?]; [auto | contradiction].
Qed.

Section RemoveNode.

Variable c : Cluster.
Variables it1 it2 : list (Host * Node).
Variable address : string.

Hypothesis it1_range : range_of (nodes c) it1.
Hypothesis it2_range : range_of (nodes c) it2.
Hypothesis distinct : nodes_distinct (nodes c).

(** C5.  [RemoveNodeByAddress] succeeds exactly when the cluster has a node
    with that address whose status is off.  After a success no node of
    [Nodes()] has the address and every other node is still there; after a
    failure the cluster is unchanged. *)
Theorem RemoveNodeByAddress_off_only :
  ((Cluster.RemoveNodeByAddress it1 it2 c address).2 = None
   ↔ ∃ h n, nodes c !! h = Some n ∧ Node.Address n = address ∧ Node.Status n = Off)
  ∧ ((Cluster.RemoveNodeByAddress it1 it2 c address).2 = None →
     (∀ it', range_of (nodes (Cluster.RemoveNodeByAddress it1 it2 c address).1) it' →
             ∀ n, n ∈ Cluster.Nodes it' → Node.Address n ≠ address)
     ∧ (∀ h n, nodes c !! h = Some n → Node.Address n ≠ address →
               nodes (Cluster.RemoveNodeByAddress it1 it2 c address).1 !! h = Some n))
  ∧ ((Cluster.RemoveNodeByAddress it1 it2 c address).2 ≠ None →
     (Cluster.RemoveNodeByAddress it1 it2 c address).1 = c).
Proof.
  unfold Cluster.RemoveNodeByAddress.
  destruct (Cluster.FindNodeByAddress it1 address) as [node |] eqn:Hfind.
  - apply FindNodeByAddress_Some in Hfind as [Hin Haddr].
    apply (range_of_Nodes (nodes c)) in Hin as [h0 Hh0]; [| exact it1_range].
    case_bool_decide as Hst; simpl.
    + split; [| split; [discriminate | reflexivity]].
      split; [discriminate |]. intros (h & n & Hn & Ha & Hoff).
      destruct (distinct h h0 n node Hn Hh0) as [_ Hsame].
      rewrite (Hsame (eq_trans Ha (eq_sym Haddr))) in Hoff. congruence.
    + split; [| split; [| intros H; contradiction]].
      * split; [| reflexivity]. intros _. exists h0, node.
        split; [exact Hh0 | split; [exact Haddr |]].
        destruct (Node.Status node); [contradiction | reflexivity].
      * intros _. split.
        -- intros it' Hit' n Hn.
           destruct (proj1 (range_of_Nodes _ _ n Hit') Hn) as [h Hh]. simpl in Hh.
           intros Ha.
           apply rebuilt_lookup in Hh as [Hentry Hp];
             [| exact (range_of_NoDup _ _ it2_range)].
           apply (range_of_entry (nodes c)) in Hentry; [| exact it2_range].
           destruct (distinct h h0 n node Hentry Hh0) as [_ Hsame].
           apply Hp. rewrite (Hsame (eq_trans Ha (eq_sym Haddr))). reflexivity.
        -- intros h n Hn Ha. simpl.
           apply rebuilt_lookup; [exact (range_of_NoDup _ _ it2_range) |].
           split; [apply (range_of_entry (nodes c)); assumption |].
           intros Hp. destruct (distinct h0 h node n Hh0 Hn) as [Hsame _].
           apply Ha. rewrite <- (Hsame Hp). exact Haddr.
  - simpl. split; [| split; [discriminate | reflexivity]].
    split; [discriminate |]. intros (h & n & Hn & Ha & _). exfalso.
    apply (FindNodeByAddress_None _ _ Hfind n); [| exact Ha].
    apply (range_of_Nodes (nodes c)); [exact it1_range | eauto].
Qed.

End RemoveNode.

Lemma ex_itAB_range : range_of (nodes ex_cluster) ex_itAB.
Proof. unfold range_of. vm_compute. first [reflexivity | apply perm_swap]. Qed.

Lemma ex_cluster_distinct : nodes_distinct (nodes ex_cluster).
Proof.
  assert (Hnodes : ∀ h n, nodes ex_cluster !! h = Some n → n = ex_nodeA ∨ n = ex_nodeB).
  { intros h n Hn. apply (range_of_entry _ _ h n ex_itAB_range) in Hn.
    unfold ex_itAB in Hn. rewrite !elem_of_cons in Hn.
    destruct Hn as [[= _ ->] | [[= _ ->] | Hn]]; [auto | auto | inversion Hn]. }
  intros h1 h2 n1 n2 H1 H2.
  destruct (Hnodes _ _ H1) as [-> | ->], (Hnodes _ _ H2) as [-> | ->];
    split; intros Heq; try reflexivity; vm_compute in Heq; discriminate.
Qed.

Lemma RemoveNodeByAddress_off_only_witness :
  range_of (nodes ex_cluster) ex_itAB
  ∧ nodes_distinct (nodes ex_cluster)
  ∧ (Cluster.RemoveNodeByAddress ex_itAB ex_itAB ex_cluster "A:3000").2 = None
  ∧ (Cluster.RemoveNodeByAddress ex_itAB ex_itAB ex_cluster "B:3000").1 = ex_cluster.
Proof.
  split; [exact ex_itAB_range | split; [exact ex_cluster_distinct |]].
  split.
  - apply (proj1 (RemoveNodeByAddress_off_only ex_cluster ex_itAB ex_itAB "A:3000"
                    ex_itAB_range ex_itAB_range ex_cluster_distinct)).
    exists (NewHost "A" 3000), ex_nodeA. vm_compute. repeat split; reflexivity.
  - apply (proj2 (proj2 (RemoveNodeByAddress_off_only ex_cluster ex_itAB ex_itAB "B:3000"
                           ex_itAB_range ex_itAB_range ex_cluster_distinct))).
    vm_compute. discriminate.
Defined.

(** A node that is on is not removed, and one that is not there is not
    found. *)
Example RemoveNodeByAddress_errors :
  (Cluster.RemoveNodeByAddress ex_itAB ex_itAB ex_cluster "B:3000").2
    = Some "Node B:3000 is active. Only inactive nodes can be removed."
  ∧ (Cluster.RemoveNodeByAddress ex_itAB ex_itAB ex_cluster "C:3000").2
    = Some "Node C:3000 not found.".
Proof. vm_compute. split; reflexivity. Qed.

Section AddNode.

Variable resolveHost : string → list string * error.
Variable newNode : Node.
Variable c c' : Cluster.
Variable address : string.
Variable port : Z.
Variables (first : string) (rest : list string).

(** The call succeeded, and the lookup resolved [address] to [first],
    followed by [rest]. *)
Hypothesis added : Cluster.AddNode resolveHost newNode c address port = Ret (c', None).
Hypothesis resolved : (resolveHost address).1 = first :: rest.

Lemma AddNode_nodes :
  nodes c' = <[NewHost first port := Node.setOrigHost newNode (NewHost first port)]> (nodes c).
Proof.
  unfold Cluster.AddNode in added.
  destruct (resolveHost address) as [l [err |]]; simpl in resolved; subst l;
    [discriminate |].
  destruct (existsb _ _); [discriminate |].
  destruct (client c); [| discriminate].
  injection added as <-. reflexivity.
Qed.

(** C6.  After [AddNode] succeeded, [NodeList] contains the address
    [first:port] of the node added, and a further [AddNode] for the same
    port whose lookup yields [first] among its addresses returns the error
    [Node already exists] and leaves the cluster as it is. *)
Theorem AddNode_listed_then_exists :
  (∀ it', range_of (nodes c') it' →
          Host_String (NewHost first port) ∈ Cluster.NodeList it')
  ∧ (∀ resolveHost2 newNode2 address2 l2,
       resolveHost2 address2 = (l2, None) → first ∈ l2 →
       Cluster.AddNode resolveHost2 newNode2 c' address2 port
       = Ret (c', Some "Node already exists")).
Proof.
  split.
  - intros it' Hit'. unfold Cluster.NodeList, SortStrings.
    rewrite merge_sort_Permutation. apply list_elem_of_fmap.
    exists (Node.setOrigHost newNode (NewHost first port)). split; [reflexivity |].
    apply (range_of_Nodes (nodes c')); [exact Hit' |].
    exists (NewHost first port). rewrite AddNode_nodes. apply lookup_insert_eq.
  - intros resolveHost2 newNode2 address2 l2 Hres2 Hin.
    unfold Cluster.AddNode. rewrite Hres2.
    destruct l2 as [| a r]; [inversion Hin |].
    assert (Hex : existsb (λ address0, bool_decide (is_Some (nodes c' !! NewHost address0 port)))
                    (a :: r) = true).
    { apply existsb_exists. exists first. split; [apply list_elem_of_In, Hin |].
      apply bool_decide_eq_true. rewrite AddNode_nodes, lookup_insert_eq. eauto. }
    rewrite Hex. reflexivity.
Qed.

End AddNode.

(** When the lookup returns no address and no error, [AddNode] returns
    [nil] and adds nothing. *)
Lemma AddNode_nothing_resolved resolveHost newNode (c : Cluster) address port :
  resolveHost address = ([], None) →
  Cluster.AddNode resolveHost newNode c address port = Ret (c, None).
Proof. intros H. unfold Cluster.AddNode. rewrite H. reflexivity. Qed.

Lemma AddNode_listed_then_exists_witness :
  Cluster.AddNode ex_resolve ex_newNode ex_cluster "db5.example.com" 3000
    = Ret (ex_added, None)
  ∧ (ex_resolve "db5.example.com").1 = "10.0.0.5" :: ["10.0.0.6"]
  ∧ "10.0.0.5:3000" ∈ Cluster.NodeList (map_to_list (nodes ex_added))
  ∧ Cluster.AddNode ex_resolve ex_newNode ex_added "db5.example.com" 3000
    = Ret (ex_added, Some "Node already exists").
Proof.
  assert (H1 : Cluster.AddNode ex_resolve ex_newNode ex_cluster "db5.example.com" 3000
               = Ret (ex_added, None)) by reflexivity.
  assert (H2 : (ex_resolve "db5.example.com").1 = "10.0.0.5" :: ["10.0.0.6"]) by reflexivity.
  split; [exact H1 | split; [exact H2 |]].
  destruct (AddNode_listed_then_exists ex_resolve ex_newNode ex_cluster ex_added
              "db5.example.com" 3000 "10.0.0.5" ["10.0.0.6"] H1 H2) as [Hlist Hagain].
  split.
  - apply (Hlist (map_to_list (nodes ex_added))). unfold range_of. reflexivity.
  - apply (Hagain ex_resolve ex_newNode "db5.example.com" ["10.0.0.5"; "10.0.0.6"]);
      [reflexivity | left].
Defined.

(** ** The info fan-out *)

Lemma length_zero_empty (s : string) : String.length s = 0%nat → s = "".
Proof. destruct s; [reflexivity | discriminate]. Qed.

(** One round of the collecting loop files [entry_value] under the node
    and appends the error, if any. *)
Lemma RequestInfoAll_unfold (cmd : string) (ch : list nodeCommand) :
  Cluster.RequestInfoAll cmd ch
  = (foldl (λ (m : gmap positive string) r,
              <[node_ptr (nc_Node r) := entry_value cmd r]> m) ∅ ch,
     match omap nc_Err ch with
     | [] => None
     | errs => Some (Join errs ", ")
     end).
Proof.
  unfold Cluster.RequestInfoAll.
  assert (Hgen : ∀ (res0 : gmap positive string) (errs0 : list string),
    foldl (Cluster.RequestInfoAll_collect cmd) (res0, errs0) ch
    = (foldl (λ (m : gmap positive string) r,
                <[node_ptr (nc_Node r) := entry_value cmd r]> m) res0 ch,
       (errs0 ++ omap nc_Err ch)%list)).
  { induction ch as [| r ch IH]; intros res0 errs0.
    - simpl. rewrite app_nil_r. reflexivity.
    - simpl foldl. unfold entry_value at 2.
      destruct (nc_Err r) as [err |] eqn:He.
      + rewrite IH, insert_insert_eq. simpl omap. rewrite He, <- app_assoc. reflexivity.
      + simpl omap. rewrite He.
        destruct ((0 <? size (nc_Res r))%nat
                  && (0 <? String.length (default "" (nc_Res r !! cmd)))%nat) eqn:Hc.
        * rewrite IH, insert_insert_eq. reflexivity.
        * rewrite IH. do 3 f_equal.
          apply andb_false_iff in Hc as [Hc | Hc]; apply Nat.ltb_ge in Hc.
          -- assert (Hempty : nc_Res r = ∅) by (apply map_size_empty_iff; lia).
             rewrite Hempty, lookup_empty. reflexivity.
          -- symmetry. apply length_zero_empty. lia. }
  rewrite (Hgen ∅ []). simpl. destruct (omap nc_Err ch); reflexivity.
Qed.

Lemma collected_dom (cmd : string) (ch : list nodeCommand) (m : gmap positive string) :
  dom (foldl (λ (m : gmap positive string) r,
                <[node_ptr (nc_Node r) := entry_value cmd r]> m) m ch)
  = dom m ∪ list_to_set (node_ptr <$> (nc_Node <$> ch)).
Proof.
  revert m. induction ch as [| r ch IH]; intros m; simpl.
  - rewrite (right_id_L ∅ (∪)). reflexivity.
  - rewrite IH, dom_insert_L. apply set_eq. intros x.
    rewrite !elem_of_union, elem_of_singleton. tauto.
Qed.

Lemma collected_from (cmd : string) (ch : list nodeCommand) (m : gmap positive string)
    (p : positive) (v : string) :
  foldl (λ (m : gmap positive string) r,
           <[node_ptr (nc_Node r) := entry_value cmd r]> m) m ch !! p = Some v →
  (∃ r, r ∈ ch ∧ node_ptr (nc_Node r) = p ∧ v = entry_value cmd r) ∨ m !! p = Some v.
Proof.
  revert m. induction ch as [| r ch IH]; intros m; simpl; [auto |].
  intros H. apply IH in H as [(r' & Hin & Hp & Hv) | H].
  - left. exists r'. split; [right; exact Hin | auto].
  - destruct (decide (node_ptr (nc_Node r) = p)) as [Hp | Hp].
    + rewrite Hp, lookup_insert_eq in H. injection H as <-.
      left. exists r. split; [left | auto].
    + rewrite lookup_insert_ne in H by exact Hp. auto.
Qed.

Lemma collected_keeps (cmd : string) (ch : list nodeCommand) (m : gmap positive string)
    (p : positive) :
  p ∉ node_ptr <$> (nc_Node <$> ch) →
  foldl (λ (m : gmap positive string) r,
           <[node_ptr (nc_Node r) := entry_value cmd r]> m) m ch !! p = m !! p.
Proof.
  revert m. induction ch as [| r ch IH]; intros m Hp; simpl; [reflexivity |].
  simpl in Hp. apply not_elem_of_cons in Hp as [Hne Hp].
  rewrite IH by exact Hp. apply lookup_insert_ne. congruence.
Qed.

Lemma collected_entry (cmd : string) (ch : list nodeCommand) (m : gmap positive string)
    (r : nodeCommand) :
  NoDup (node_ptr <$> (nc_Node <$> ch)) → r ∈ ch →
  foldl (λ (m : gmap positive string) r,
           <[node_ptr (nc_Node r) := entry_value cmd r]> m) m ch
    !! node_ptr (nc_Node r) = Some (entry_value cmd r).
Proof.
  revert m. induction ch as [| r0 ch IH]; intros m Hnd Hin; [inversion Hin |].
  simpl in Hnd. apply NoDup_cons in Hnd as [Hfresh Hnd]. simpl.
  apply elem_of_cons in Hin as [-> | Hin].
  - rewrite collected_keeps by exact Hfresh. apply lookup_insert_eq.
  - apply IH; assumption.
Qed.

Section RequestInfoAll.

Variable cmd : string.
Variable ns : list Node.
Variable ch : list nodeCommand.

(** Each node of [c.Nodes()] put one message on the channel. *)
Hypothesis one_each : nc_Node <$> ch ≡ₚ ns.

(** C7, as amended.  The map returned by [RequestInfoAll] has exactly one
    entry per node.  The value of an entry is the error text of a request to
    that node that failed, or else the node's response to the command, or
    the empty string when the response has none; when the nodes are
    distinct every request is filed so.  The error returned is [nil] when no
    request failed and otherwise the error texts joined with a comma and a
    space, in the order of arrival. *)
Theorem RequestInfoAll_entries :
  dom (Cluster.RequestInfoAll cmd ch).1 = list_to_set (node_ptr <$> ns)
  ∧ (∀ p v, (Cluster.RequestInfoAll cmd ch).1 !! p = Some v →
            ∃ r, r ∈ ch ∧ node_ptr (nc_Node r) = p ∧ v = entry_value cmd r)
  ∧ (NoDup (node_ptr <$> ns) →
     ∀ r, r ∈ ch →
          (Cluster.RequestInfoAll cmd ch).1 !! node_ptr (nc_Node r)
          = Some (entry_value cmd r))
  ∧ (Cluster.RequestInfoAll cmd ch).2
    = match omap nc_Err ch with
      | [] => None
      | errs => Some (Join errs ", ")
      end.
Proof.
  rewrite RequestInfoAll_unfold. simpl. split; [| split; [| split]].
  - rewrite collected_dom, one_each, dom_empty_L, (left_id_L ∅ (∪)). reflexivity.
  - intros p v H. apply collected_from in H as [H | H]; [exact H |].
    rewrite lookup_empty in H. discriminate.
  - intros Hnd r Hin. apply collected_entry; [| exact Hin].
    rewrite one_each. exact Hnd.
  - reflexivity.
Qed.

End RequestInfoAll.

Lemma RequestInfoAll_entries_witness :
  nc_Node <$> ex_channel ≡ₚ [ex_nodeA; ex_nodeB]
  ∧ NoDup (node_ptr <$> [ex_nodeA; ex_nodeB])
  ∧ (Cluster.RequestInfoAll "build" ex_channel).1 !! node_ptr ex_nodeA = Some "timeout"
  ∧ (Cluster.RequestInfoAll "build" ex_channel).1 !! node_ptr ex_nodeB = Some "4.4.0".
Proof.
  assert (H1 : nc_Node <$> ex_channel ≡ₚ [ex_nodeA; ex_nodeB]) by apply perm_swap.
  assert (H2 : NoDup (node_ptr <$> [ex_nodeA; ex_nodeB])).
  { vm_compute. apply NoDup_cons. split; [| apply NoDup_singleton].
    intros H. apply list_elem_of_singleton in H. discriminate. }
  split; [exact H1 | split; [exact H2 |]].
  destruct (RequestInfoAll_entries "build" [ex_nodeA; ex_nodeB] ex_channel H1)
    as (_ & _ & Hentry & _).
  split.
  - exact (Hentry H2 (mkNodeCommand ex_nodeA ∅ (Some "timeout"))
             (list_elem_of_further _ _ _ (list_elem_of_here _ _))).
  - exact (Hentry H2 (mkNodeCommand ex_nodeB {[ "build" := "4.4.0" ]} None)
             (list_elem_of_here _ _)).
Defined.

(** C7, as stated, fails for a node whose request failed: its entry holds
    the error text, which is neither its response nor the empty string. *)
Lemma RequestInfoAll_files_error_text :
  (Cluster.RequestInfoAll "build" ex_channel).1 !! node_ptr ex_nodeA = Some "timeout"
  ∧ (Cluster.RequestInfoAll "build" ex_channel).2 = Some "timeout"
  ∧ ¬ response_or_empty "build" ex_channel (Cluster.RequestInfoAll "build" ex_channel).1.
Proof.
  split; [reflexivity | split; [reflexivity |]].
  intros H.
  destruct (H (mkNodeCommand ex_nodeA ∅ (Some "timeout")) "timeout") as [Hv | Hv];
    [right; left | reflexivity | vm_compute in Hv; discriminate | discriminate].
Qed.

(** ** Namespace aggregation *)

Lemma fold_loop_app {A B : Type} (f : A → B → option A) (a : A) (l k : list B) :
  Cluster.fold_loop f a (l ++ k)
  = match Cluster.fold_loop f a l with
    | Some a' => Cluster.fold_loop f a' k
    | None => None
    end.
Proof.
  revert a. induction l as [| x l IH]; intros a; simpl; [reflexivity |].
  destruct (f a x); simpl; [apply IH | reflexivity].
Qed.

Section LeastAvailablePct.

Variable c : Cluster.
Variable node : Node.
Variable nsName : string.
Variable ns : Namespace.

(** The node has the namespace and reports no [available_pct] of zero or
    more for it. *)
Hypothesis has_namespace : Node.NamespaceByName node nsName = Some ns.
Hypothesis not_reported :
  (0 <=? TryFloat (Namespace_Stats ns) "available_pct" (-1))%float = false.

(** Such a node overwrites the record of the namespace with [nil]s. *)
Lemma NamespaceInfo_body_resets (res res' : gmap string (gmap string Value)) :
  Cluster.NamespaceInfo_body c node res nsName = Some res' →
  least_available_pct res' nsName = Some (VLeast None None).
Proof.
  unfold Cluster.NamespaceInfo_body. rewrite has_namespace. cbv zeta.
  rewrite not_reported. simpl. intros [= <-].
  unfold least_available_pct. rewrite lookup_insert_eq.
  rewrite lookup_insert_ne by discriminate. apply lookup_insert_eq.
Qed.

(** The body for another namespace leaves the entry of [nsName] alone. *)
Lemma NamespaceInfo_body_other (name : string) (res res' : gmap string (gmap string Value)) :
  name ≠ nsName →
  Cluster.NamespaceInfo_body c node res name = Some res' →
  res' !! nsName = res !! nsName.
Proof.
  intros Hne. unfold Cluster.NamespaceInfo_body.
  destruct (Node.NamespaceByName node name) as [ns' |]; [| intros [= <-]; reflexivity].
  cbv zeta. intros H. apply bind_Some in H as (lpct & _ & [= <-]).
  apply lookup_insert_ne. exact Hne.
Qed.

Lemma NamespaceInfo_inner_other (l : list string) (res res' : gmap string (gmap string Value)) :
  nsName ∉ l →
  Cluster.fold_loop (Cluster.NamespaceInfo_body c node) res l = Some res' →
  res' !! nsName = res !! nsName.
Proof.
  revert res. induction l as [| name l IH]; intros res Hnotin; simpl.
  - intros [= <-]. reflexivity.
  - apply not_elem_of_cons in Hnotin as [Hne Hnotin].
    destruct (Cluster.NamespaceInfo_body c node res name) as [res1 |] eqn:Hbody;
      simpl; [| discriminate].
    intros H. rewrite (IH _ Hnotin H).
    apply (NamespaceInfo_body_other name); [congruence | exact Hbody].
Qed.

Lemma NamespaceInfo_inner_resets (l : list string) (res res' : gmap string (gmap string Value)) :
  nsName ∈ l →
  Cluster.fold_loop (Cluster.NamespaceInfo_body c node) res l = Some res' →
  least_available_pct res' nsName = Some (VLeast None None).
Proof.
  revert res. induction l as [| name l IH]; intros res Hin; [inversion Hin |].
  simpl.
  destruct (Cluster.NamespaceInfo_body c node res name) as [res1 |] eqn:Hbody;
    simpl; [| discriminate].
  intros H. destruct (decide (nsName ∈ l)) as [Hl | Hl].
  - exact (IH _ Hl H).
  - apply elem_of_cons in Hin as [Heq | Hin]; [subst name | contradiction].
    unfold least_available_pct. rewrite (NamespaceInfo_inner_other l res1 res' Hl H).
    exact (NamespaceInfo_body_resets res res1 Hbody).
Qed.

(** Whatever the nodes met before it reported, when the node that the range
    over the node map meets last has a requested namespace without a
    non-negative [available_pct], the [least_available_pct] record of that
    namespace in the result of [NamespaceInfo] is [{node: nil, value: nil}]. *)
Lemma NamespaceInfo_last_node_resets (it : list (Host * Node)) (h : Host)
    (namespaces : list string) (res : gmap string (gmap string Value)) :
  nsName ∈ namespaces →
  Cluster.NamespaceInfo (it ++ [(h, node)]) c namespaces = Some res →
  least_available_pct res nsName = Some (VLeast None None).
Proof.
  intros Hin. unfold Cluster.NamespaceInfo, Cluster.Nodes.
  rewrite fmap_app. simpl. rewrite fold_loop_app.
  destruct (Cluster.fold_loop _ ∅ it.*2) as [res0 |]; [| discriminate].
  simpl.
  destruct (Cluster.fold_loop (Cluster.NamespaceInfo_body c node) res0 namespaces)
    as [res1 |] eqn:Hinner; [| discriminate].
  intros [= <-].
  pose proof (NamespaceInfo_inner_resets namespaces res0 res1 Hin Hinner) as Hres.
  unfold least_available_pct in *. rewrite lookup_fmap.
  destruct (res1 !! nsName) as [stats |]; [| discriminate]. simpl.
  rewrite lookup_insert_ne by discriminate. exact Hres.
Qed.

End LeastAvailablePct.

(** C1 on the worked cluster.  Node A reports [available_pct = 50] for
    [test]; node B has [test] but reports no [available_pct].  When the
    range meets A and then B, the record is [{node: nil, value: nil}] and
    not [{A, 50}]; when it meets B and then A, the record is [{A, 50}].  So
    a node that reports no [available_pct] does affect the record. *)
Theorem NamespaceInfo_least_available_pct_reset :
  range_of (nodes ex_cluster) ex_itAB
  ∧ (∃ res, Cluster.NamespaceInfo ex_itAB ex_cluster ["test"] = Some res
            ∧ least_available_pct res "test" = Some (VLeast None None))
  ∧ (∃ res, Cluster.NamespaceInfo (rev ex_itAB) ex_cluster ["test"] = Some res
            ∧ least_available_pct res "test"
              = Some (VLeast (Some "A:3000") (Some 50%float))).
Proof.
  split; [exact ex_itAB_range |]. split.
  - destruct (Cluster.NamespaceInfo ex_itAB ex_cluster ["test"]) as [res |] eqn:E;
      [| vm_compute in E; discriminate].
    exists res. split; [reflexivity |].
    apply (NamespaceInfo_last_node_resets ex_cluster ex_nodeB "test"
             (mkNamespace {[ "objects" := VInt 3 ]}) eq_refl eq_refl
             [(NewHost "A" 3000, ex_nodeA)] (NewHost "B" 3000) ["test"] res);
      [left | exact E].
  - destruct (Cluster.NamespaceInfo (rev ex_itAB) ex_cluster ["test"]) as [res |] eqn:E;
      [| vm_compute in E; discriminate].
    exists res. split; [reflexivity |].
    vm_compute in E. injection E as <-. vm_compute. reflexivity.
Qed.

(** * Further properties of the code *)

(** ** Alias and name *)

Lemma find_split {A : Type} (f : A → bool) (l : list A) (x : A) :
  List.find f l = Some x →
  ∃ pre post, l = (pre ++ x :: post)%list ∧ f x = true ∧ ∀ y, y ∈ pre → f y = false.
Proof.
  induction l as [| a l IH]; simpl; [discriminate |].
  destruct (f a) eqn:Ha.
  - intros [= ->]. exists [], l. split; [reflexivity | split; [exact Ha |]].
    intros y Hy. inversion Hy.
  - intros H. destruct (IH H) as (pre & post & -> & Hx & Hpre).
    exists (a :: pre), post. split; [reflexivity | split; [exact Hx |]].
    intros y Hy. apply elem_of_cons in Hy as [-> | Hy]; auto.
Qed.

Lemma named_iff (s : string) :
  negb (String.eqb s "") && negb (String.eqb s "null") = true ↔ s ≠ "" ∧ s ≠ "null".
Proof.
  rewrite andb_true_iff, !negb_true_iff, !String.eqb_neq. reflexivity.
Qed.

(** X1.  After [SetAlias(a)] the alias read back by [Alias] is [a] when [a]
    is not empty; setting the empty string clears the alias, and [Alias]
    falls back to the cluster name the nodes report. *)
Theorem SetAlias_then_Alias (it : list (Host * Node)) (c : Cluster) (a : string) :
  Cluster.Alias it (Cluster.SetAlias c a)
  = if String.eqb a "" then Cluster.Name it else Some a.
Proof.
  unfold Cluster.SetAlias, Cluster.Alias. destruct a; reflexivity.
Qed.

(** X2.  [Name] returns the cluster name reported by the first node, in the
    order of the range, whose name is neither empty nor [null]; it returns
    [nil] exactly when every node reports one of these two. *)
Theorem Name_first_reported (it : list (Host * Node)) :
  match Cluster.Name it with
  | Some s =>
    s ≠ "" ∧ s ≠ "null"
    ∧ ∃ pre n post, Cluster.Nodes it = (pre ++ n :: post)%list
        ∧ Node.ClusterName n = s
        ∧ ∀ m, m ∈ pre → Node.ClusterName m = "" ∨ Node.ClusterName m = "null"
  | None =>
    ∀ n, n ∈ Cluster.Nodes it → Node.ClusterName n = "" ∨ Node.ClusterName n = "null"
  end.
Proof.
  unfold Cluster.Name.
  destruct (List.find _ (Cluster.Nodes it)) as [n |] eqn:Hfind; simpl.
  - apply find_split in Hfind as (pre & post & Heq & Hn & Hpre).
    apply named_iff in Hn as [Hn1 Hn2]. split; [exact Hn1 | split; [exact Hn2 |]].
    exists pre, n, post. split; [exact Heq | split; [reflexivity |]].
    intros m Hm. specialize (Hpre m Hm).
    destruct (String.eqb_spec (Node.ClusterName m) ""); [auto |].
    destruct (String.eqb_spec (Node.ClusterName m) "null"); [auto | discriminate].
  - intros n Hn. apply list_elem_of_In in Hn. apply (find_none _ _ Hfind) in Hn.
    destruct (String.eqb_spec (Node.ClusterName n) ""); [auto |].
    destruct (String.eqb_spec (Node.ClusterName n) "null"); [auto | discriminate].
Qed.

(** X3.  [Alias] never returns the empty string, and a name taken from the
    nodes, when no alias is set, is never [null]. *)
Theorem Alias_never_empty (it : list (Host * Node)) (c : Cluster) (a : string) :
  Cluster.Alias it c = Some a →
  a ≠ "" ∧ (alias c = None → a ≠ "null").
Proof.
  assert (Hname : Cluster.Name it = Some a → a ≠ "" ∧ a ≠ "null").
  { unfold Cluster.Name. intros H. apply fmap_Some in H as (n & Hfind & ->).
    apply find_some in Hfind as [_ Hn]. apply named_iff, Hn. }
  unfold Cluster.Alias. destruct (alias c) as [x |].
  - destruct x as [| ch x]; simpl.
    + intros H. split; [apply Hname, H | discriminate].
    + intros [= <-]. split; discriminate.
  - intros H. split; [apply Hname, H | intros _; apply Hname, H].
Qed.

Lemma Alias_never_empty_witness :
  Cluster.Alias ex_itAB (Cluster.SetAlias ex_cluster "prod") = Some "prod"
  ∧ "prod" ≠ "".
Proof.
  split; [reflexivity |].
  apply (Alias_never_empty ex_itAB (Cluster.SetAlias ex_cluster "prod") "prod").
  reflexivity.
Defined.

(** ** Queries on the nodes *)

Lemma OffNodes_filter (it : list (Host * Node)) :
  Cluster.OffNodes it
  = Node.Address <$> filter (λ n, Node.Status n = Off) (Cluster.Nodes it).
Proof.
  unfold Cluster.OffNodes.
  assert (Hgen : ∀ (l : list Node) (res : list string),
    foldl (λ (res : list string) node,
             if bool_decide (Node.Status node = Off)
             then (res ++ [Node.Address node])%list else res) res l
    = (res ++ (Node.Address <$> filter (λ n, Node.Status n = Off) l))%list).
  { induction l as [| n l IH]; intros res; simpl.
    - rewrite app_nil_r. reflexivity.
    - rewrite IH. case_bool_decide as Hst.
      + rewrite filter_cons_True by exact Hst. rewrite <- app_assoc. reflexivity.
      + rewrite filter_cons_False by exact Hst. reflexivity. }
  apply (Hgen _ []).
Qed.

Lemma OffNodes_elem (m : gmap Host Node) (it : list (Host * Node)) (address : string) :
  range_of m it →
  (address ∈ Cluster.OffNodes it
   ↔ ∃ h n, m !! h = Some n ∧ Node.Status n = Off ∧ Node.Address n = address).
Proof.
  intros Hit. rewrite OffNodes_filter, list_elem_of_fmap. split.
  - intros (n & -> & Hn). apply list_elem_of_filter in Hn as [Hoff Hn].
    apply (range_of_Nodes m) in Hn as [h Hh]; [| exact Hit]. eauto.
  - intros (h & n & Hn & Hoff & <-). exists n. split; [reflexivity |].
    apply list_elem_of_filter. split; [exact Hoff |].
    apply (range_of_Nodes m); [exact Hit | eauto].
Qed.

(** X4.  The addresses [RemoveNodeByAddress] accepts are exactly those that
    [OffNodes] lists, and once a node is removed [OffNodes] does not list
    its address any more. *)
Theorem OffNodes_are_the_removable (c : Cluster) (it it1 it2 : list (Host * Node))
    (address : string) :
  range_of (nodes c) it → range_of (nodes c) it1 → range_of (nodes c) it2 →
  nodes_distinct (nodes c) →
  ((Cluster.RemoveNodeByAddress it1 it2 c address).2 = None
   ↔ address ∈ Cluster.OffNodes it)
  ∧ ((Cluster.RemoveNodeByAddress it1 it2 c address).2 = None →
     ∀ it', range_of (nodes (Cluster.RemoveNodeByAddress it1 it2 c address).1) it' →
            address ∉ Cluster.OffNodes it').
Proof.
  intros Hit Hit1 Hit2 Hdist. rewrite (OffNodes_elem (nodes c) it address Hit).
  unfold Cluster.RemoveNodeByAddress.
  destruct (Cluster.FindNodeByAddress it1 address) as [node |] eqn:Hfind.
  - apply FindNodeByAddress_Some in Hfind as [Hin Haddr].
    apply (range_of_Nodes (nodes c)) in Hin as [h0 Hh0]; [| exact Hit1].
    case_bool_decide as Hst; simpl.
    + split; [| discriminate]. split; [discriminate |].
      intros (h & n & Hn & Hoff & Ha).
      destruct (Hdist h h0 n node Hn Hh0) as [_ Hsame].
      rewrite (Hsame (eq_trans Ha (eq_sym Haddr))) in Hoff. congruence.
    + split.
      * split; [| reflexivity]. intros _. exists h0, node.
        split; [exact Hh0 | split; [| exact Haddr]].
        destruct (Node.Status node); [contradiction | reflexivity].
      * intros _ it' Hit' Hin.
        apply (OffNodes_elem _ it' address Hit') in Hin as (h & n & Hh & _ & Ha).
        simpl in Hh.
        apply rebuilt_lookup in Hh as [Hentry Hp]; [| exact (range_of_NoDup _ _ Hit2)].
        apply (range_of_entry (nodes c)) in Hentry; [| exact Hit2].
        destruct (Hdist h h0 n node Hentry Hh0) as [_ Hsame].
        apply Hp. rewrite (Hsame (eq_trans Ha (eq_sym Haddr))). reflexivity.
  - simpl. split; [| discriminate]. split; [discriminate |].
    intros (h & n & Hn & _ & Ha). exfalso.
    apply (FindNodeByAddress_None _ _ Hfind n); [| exact Ha].
    apply (range_of_Nodes (nodes c)); [exact Hit1 | eauto].
Qed.

Lemma OffNodes_are_the_removable_witness :
  range_of (nodes ex_cluster) ex_itAB
  ∧ nodes_distinct (nodes ex_cluster)
  ∧ ((Cluster.RemoveNodeByAddress ex_itAB ex_itAB ex_cluster "A:3000").2 = None
     ↔ "A:3000" ∈ Cluster.OffNodes ex_itAB).
Proof.
  split; [exact ex_itAB_range | split; [exact ex_cluster_distinct |]].
  apply (OffNodes_are_the_removable ex_cluster ex_itAB ex_itAB ex_itAB "A:3000"
           ex_itAB_range ex_itAB_range ex_itAB_range ex_cluster_distinct).
Defined.

(** X5.  [RandomActiveNode] returns a node of the cluster whose status is
    on, and [nil] exactly when every node of the cluster is off. *)
Theorem RandomActiveNode_is_on (c : Cluster) (it : list (Host * Node)) :
  range_of (nodes c) it →
  match Cluster.RandomActiveNode it with
  | Some n => (∃ h, nodes c !! h = Some n) ∧ Node.Status n = On
  | None => ∀ h n, nodes c !! h = Some n → Node.Status n = Off
  end.
Proof.
  intros Hit. unfold Cluster.RandomActiveNode.
  destruct (List.find _ (Cluster.Nodes it)) as [n |] eqn:Hfind.
  - apply find_some in Hfind as [Hin Hon]. apply bool_decide_eq_true in Hon.
    split; [| exact Hon].
    apply (range_of_Nodes (nodes c) it); [exact Hit | apply list_elem_of_In, Hin].
  - intros h n Hn.
    assert (Hin : n ∈ Cluster.Nodes it)
      by (apply (range_of_Nodes (nodes c)); [exact Hit | eauto]).
    apply list_elem_of_In in Hin. apply (find_none _ _ Hfind) in Hin.
    apply bool_decide_eq_false in Hin. destruct (Node.Status n); [contradiction | reflexivity].
Qed.

Lemma RandomActiveNode_is_on_witness :
  range_of (nodes ex_cluster) ex_itAB
  ∧ Cluster.RandomActiveNode ex_itAB = Some ex_nodeB
  ∧ Node.Status ex_nodeB = On.
Proof.
  split; [exact ex_itAB_range | split; [reflexivity |]].
  exact (proj2 (RandomActiveNode_is_on ex_cluster ex_itAB ex_itAB_range)).
Defined.

Lemma range_of_map_to_list (m : gmap Host Node) : range_of m (map_to_list m).
Proof. unfold range_of. reflexivity. Qed.

Lemma FindNodeByAddress_known (m : gmap Host Node) (it : list (Host * Node))
    (address : string) :
  range_of m it →
  (is_Some (Cluster.FindNodeByAddress it address) ↔ address ∈ addresses m).
Proof.
  intros Hit. unfold addresses. rewrite list_elem_of_fmap. split.
  - intros [n Hn]. apply FindNodeByAddress_Some in Hn as [Hin Ha].
    exists n. split; [symmetry; exact Ha |].
    apply (range_of_Nodes m it n Hit) in Hin.
    apply (range_of_Nodes m (map_to_list m) n); [apply range_of_map_to_list | exact Hin].
  - intros (n & -> & Hn).
    destruct (Cluster.FindNodeByAddress it (Node.Address n)) as [n' |] eqn:Hfind; [eauto |].
    exfalso. apply (FindNodeByAddress_None _ _ Hfind n); [| reflexivity].
    apply (range_of_Nodes m it n Hit).
    apply (range_of_Nodes m (map_to_list m) n); [apply range_of_map_to_list | exact Hn].
Qed.

(** X6.  [FindNodesByAddress] returns nodes of the cluster only, and their
    addresses are the requested addresses that belong to a node of the
    cluster, in the order of the request: an address that no node has is
    skipped, so the result is never longer than the request. *)
Theorem FindNodesByAddress_known_only (c : Cluster)
    (requests : list (list (Host * Node) * string)) :
  Forall (λ r, range_of (nodes c) r.1) requests →
  (∀ n, n ∈ Cluster.FindNodesByAddress requests → ∃ h, nodes c !! h = Some n)
  ∧ Node.Address <$> Cluster.FindNodesByAddress requests
    = filter (λ a, a ∈ addresses (nodes c)) requests.*2
  ∧ (length (Cluster.FindNodesByAddress requests) <= length requests)%nat.
Proof.
  intros Hreq. unfold Cluster.FindNodesByAddress.
  induction requests as [| [it addr] requests IH] using rev_ind.
  - simpl. split; [intros n Hn; inversion Hn | split; [reflexivity | lia]].
  - apply Forall_app in Hreq as [Hreq Hlast]. rewrite Forall_singleton in Hlast.
    simpl in Hlast. destruct (IH Hreq) as (IH1 & IH2 & IH3). clear IH.
    rewrite foldl_app, fmap_app, filter_app, length_app. simpl.
    pose proof (FindNodeByAddress_known (nodes c) it addr Hlast) as Hknown.
    destruct (Cluster.FindNodeByAddress it addr) as [node |] eqn:Hfind.
    + apply FindNodeByAddress_Some in Hfind as [Hin Ha].
      split; [| split].
      * intros n Hn. apply elem_of_app in Hn as [Hn | Hn]; [auto |].
        apply list_elem_of_singleton in Hn as ->.
        apply (range_of_Nodes (nodes c) it); assumption.
      * rewrite fmap_app, IH2. f_equal. simpl.
        rewrite filter_cons_True by (apply Hknown; eauto).
        rewrite Ha. reflexivity.
      * rewrite length_app. simpl. lia.
    + split; [exact IH1 | split; [| lia]].
      rewrite IH2. rewrite filter_cons_False.
      * rewrite filter_nil, app_nil_r. reflexivity.
      * intros Hk. apply Hknown in Hk as [? ?]. discriminate.
Qed.

Lemma FindNodesByAddress_known_only_witness :
  Forall (λ r, range_of (nodes ex_cluster) r.1)
    [(ex_itAB, "B:3000"); (ex_itAB, "C:3000"); (ex_itAB, "A:3000")]
  ∧ Cluster.FindNodesByAddress
      [(ex_itAB, "B:3000"); (ex_itAB, "C:3000"); (ex_itAB, "A:3000")]
    = [ex_nodeB; ex_nodeA]
  ∧ (length (Cluster.FindNodesByAddress
               [(ex_itAB, "B:3000"); (ex_itAB, "C:3000"); (ex_itAB, "A:3000")]) <= 3)%nat.
Proof.
  assert (H : Forall (λ r, range_of (nodes ex_cluster) r.1)
                [(ex_itAB, "B:3000"); (ex_itAB, "C:3000"); (ex_itAB, "A:3000")])
    by (repeat (apply Forall_cons_2; [exact ex_itAB_range |]); apply Forall_nil_2).
  split; [exact H | split; [reflexivity |]].
  exact (proj2 (proj2 (FindNodesByAddress_known_only ex_cluster _ H))).
Defined.

(** ** Adding a node, closing the connection *)

(** X7.  [AddNode] never replaces or drops a node: every entry of the node
    map is still there after the call.  When it returns an error the
    cluster is unchanged; when it succeeds for a lookup that gave an
    address, the map has exactly one entry more and the client one seed
    more. *)
Theorem AddNode_keeps_nodes (resolveHost : string → list string * error) (newNode : Node)
    (c c' : Cluster) (address : string) (port : Z) (err : error) :
  Cluster.AddNode resolveHost newNode c address port = Ret (c', err) →
  (∀ h n, nodes c !! h = Some n → nodes c' !! h = Some n)
  ∧ (err ≠ None → c' = c)
  ∧ (err = None → (resolveHost address).1 ≠ [] →
     size (nodes c') = S (size (nodes c))
     ∧ ∃ cl cl', client c = Some cl ∧ client c' = Some cl'
         ∧ length (client_seeds cl') = S (length (client_seeds cl))).
Proof.
  unfold Cluster.AddNode.
  destruct (resolveHost address) as [[| first rest] [e |]]; simpl.
  - intros [= <- <-]. split; [auto | split; [reflexivity | discriminate]].
  - intros [= <- <-]. split; [auto | split; [reflexivity |]].
    intros _ H. contradiction.
  - intros [= <- <-]. split; [auto | split; [reflexivity | discriminate]].
  - destruct (bool_decide _ || existsb _ rest) eqn:Hex.
    + intros [= <- <-]. split; [auto | split; [reflexivity | discriminate]].
    + destruct (client c) as [cl |] eqn:Hcl; [| discriminate].
      intros [= <- <-]. simpl.
      assert (Hfresh : nodes c !! NewHost first port = None).
      { apply orb_false_iff in Hex as [Hex _].
        apply bool_decide_eq_false in Hex.
        destruct (nodes c !! NewHost first port); [exfalso; eauto | reflexivity]. }
      split; [| split; [intros H; contradiction |]].
      * intros h n Hn. rewrite lookup_insert_ne; [exact Hn |].
        intros <-. congruence.
      * intros _ _. split.
        -- apply map_size_insert_None, Hfresh.
        -- exists cl, (mkClient (connected cl) (client_seeds cl ++ [NewHost first port])).
           split; [reflexivity | split; [reflexivity |]].
           simpl. rewrite length_app. simpl. lia.
Qed.

Lemma AddNode_keeps_nodes_witness :
  Cluster.AddNode ex_resolve ex_newNode ex_cluster "db5.example.com" 3000
    = Ret (ex_added, None)
  ∧ ∀ h n, nodes ex_cluster !! h = Some n → nodes ex_added !! h = Some n.
Proof.
  assert (H : Cluster.AddNode ex_resolve ex_newNode ex_cluster "db5.example.com" 3000
              = Ret (ex_added, None)) by reflexivity.
  split; [exact H |].
  exact (proj1 (AddNode_keeps_nodes ex_resolve ex_newNode ex_cluster ex_added
                  "db5.example.com" 3000 None H)).
Defined.


(** ** Builds *)

(** X9.  [BuildDetails], and [versionSupported] which calls it, count as a
    ping: they set [lastPing] to the clock and change nothing else, so that
    the cluster is not eligible for auto-removal until the configured
    duration (at most 9223372036 seconds) has passed again. *)
Theorem BuildDetails_is_a_ping (CompareSimple : string → string → comparison)
    (now : Time) (it : list (Host * Node)) (vit : list (string * list string))
    (c : Cluster) (oldest : string) :
  AMC_InactiveDurBeforeRemoval (config (observer c)) <= 9223372036 →
  (Cluster.BuildDetails CompareSimple now it c).1 = set_lastPing c now
  ∧ (Cluster.versionSupported CompareSimple now it vit c oldest).1 = set_lastPing c now
  ∧ ∀ later, later - now <= AMC_InactiveDurBeforeRemoval (config (observer c)) * Second →
      Cluster.shouldAutoRemove later
        (Cluster.versionSupported CompareSimple now it vit c oldest).1 = false.
Proof.
  intros Hd. split; [reflexivity | split; [reflexivity |]].
  intros later Hlater. unfold Cluster.versionSupported, Cluster.BuildDetails,
    Cluster.updateLastestPing, Cluster.shouldAutoRemove. simpl.
  set (d := AMC_InactiveDurBeforeRemoval (config (observer c))) in *.
  destruct (permanent c); [reflexivity |]. simpl.
  destruct (Z.ltb_spec 0 d) as [Hpos | Hneg]; [| reflexivity]. simpl.
  rewrite seconds_small by lia. apply Z.ltb_ge.
  destruct (time_Since_cases later now) as [[-> ?] | [[-> ?] | [-> ?]]];
    unfold Second in *; lia.
Qed.

Lemma BuildDetails_is_a_ping_witness :
  AMC_InactiveDurBeforeRemoval (config (observer ex_cluster)) <= 9223372036
  ∧ Cluster.shouldAutoRemove 100000000000
      (Cluster.versionSupported (λ _ _, Eq) 70000000000 ex_itAB ex_vit ex_cluster "4.4.0").1
    = false.
Proof.
  assert (H : AMC_InactiveDurBeforeRemoval (config (observer ex_cluster)) <= 9223372036)
    by (vm_compute; discriminate).
  split; [exact H |].
  apply (proj2 (proj2 (BuildDetails_is_a_ping (λ _ _, Eq) 70000000000 ex_itAB ex_vit
                         ex_cluster "4.4.0" H))).
  vm_compute. discriminate.
Defined.

Lemma versionList_of_Some (ns : list Node) (b : string) (l : list string) :
  Cluster.versionList_of ns !! b = Some l
  ↔ l = Node.Address <$> filter (λ n, Node.Build n = b) ns ∧ l ≠ [].
Proof.
  rewrite versionList_of_lookup.
  destruct (Node.Address <$> filter (λ n, Node.Build n = b) ns) as [| a r].
  - split; [discriminate | intros [-> H]; contradiction].
  - split; [intros [= <-]; split; [reflexivity | discriminate] | intros [-> _]; reflexivity].
Qed.

Lemma listed_insert (m : gmap string (list string)) (b a : string) :
  listed (<[b := (default [] (m !! b) ++ [a])%list]> m) = S (listed m).
Proof.
  unfold listed. destruct (m !! b) as [l |] eqn:Hb; simpl.
  - rewrite <- (insert_delete_eq m b (l ++ [a])%list).
    rewrite map_to_list_insert by apply lookup_delete_eq.
    rewrite <- (map_to_list_delete m b l Hb). simpl.
    rewrite length_app. simpl. lia.
  - rewrite map_to_list_insert by exact Hb. reflexivity.
Qed.

Lemma listed_versionList_of (ns : list Node) :
  listed (Cluster.versionList_of ns) = length ns.
Proof.
  unfold Cluster.versionList_of.
  induction ns as [| n ns IH] using rev_ind; [reflexivity |].
  rewrite foldl_app, length_app. simpl. rewrite listed_insert, IH. lia.
Qed.

(** X10.  The version list of [BuildDetails] holds every node once, under
    the build it reports: a node's address is in the list of its build,
    every list is non-empty and holds addresses of nodes reporting that
    build, and the lists together have as many addresses as the cluster has
    nodes.  [latest_build_no] is the build of one of the nodes, or empty. *)
Theorem BuildDetails_groups_every_node (CompareSimple : string → string → comparison)
    (now : Time) (it : list (Host * Node)) (c : Cluster) :
  (∀ n, n ∈ Cluster.Nodes it →
        ∃ l, version_list (Cluster.BuildDetails CompareSimple now it c).2 !! Node.Build n
               = Some l
             ∧ Node.Address n ∈ l)
  ∧ (∀ b l, version_list (Cluster.BuildDetails CompareSimple now it c).2 !! b = Some l →
            l ≠ []
            ∧ ∀ a, a ∈ l → ∃ n, n ∈ Cluster.Nodes it ∧ Node.Build n = b
                                 ∧ Node.Address n = a)
  ∧ listed (version_list (Cluster.BuildDetails CompareSimple now it c).2)
    = length (Cluster.Nodes it)
  ∧ (latest_build_no (Cluster.BuildDetails CompareSimple now it c).2 = ""
     ∨ ∃ n, n ∈ Cluster.Nodes it
            ∧ latest_build_no (Cluster.BuildDetails CompareSimple now it c).2
              = Node.Build n).
Proof.
  unfold Cluster.BuildDetails. simpl. split; [| split; [| split]].
  - intros n Hn.
    assert (Hin : Node.Address n
                  ∈ Node.Address <$> filter (λ n0, Node.Build n0 = Node.Build n)
                                       (Cluster.Nodes it)).
    { apply list_elem_of_fmap. exists n. split; [reflexivity |].
      apply list_elem_of_filter. auto. }
    eexists. split; [| exact Hin]. apply versionList_of_Some.
    split; [reflexivity |]. intros E. rewrite E in Hin. inversion Hin.
  - intros b l Hl. apply versionList_of_Some in Hl as [-> Hne].
    split; [exact Hne |]. intros a Ha.
    apply list_elem_of_fmap in Ha as (n & -> & Hn).
    apply list_elem_of_filter in Hn as [Hb Hn]. eauto.
  - apply listed_versionList_of.
  - generalize (Cluster.Nodes it). intros ns.
    induction ns as [| n ns IH] using rev_ind; [left; reflexivity |].
    rewrite foldl_app. simpl.
    destruct (version_Compare CompareSimple (Node.Build n) _ ">").
    + right. exists n. split; [apply elem_of_app; right; left | reflexivity].
    + destruct IH as [IH | (n' & Hn' & IH)]; [left; exact IH |].
      right. exists n'. split; [apply elem_of_app; left; exact Hn' | exact IH].
Qed.

(** ** Credentials *)

(** X11.  [UpdatePassword] changes the stored password only when it
    returns [nil]: then the new password differs from the current one given,
    the current one given is the stored one and the user the stored one,
    where the cluster has them, and the client accepted the change.  The
    same call made again is then refused with [Invalid current password].
    On every error the cluster is as before. *)
Theorem UpdatePassword_validates (ChangePassword : string → string → error)
    (s s' : ClusterState) (username currentPass newPass : string) (err : error) :
  Cluster.UpdatePassword ChangePassword s username currentPass newPass = Ret (s', err) →
  (err ≠ None → s' = s)
  ∧ (err = None →
     currentPass ≠ newPass
     ∧ s' = set_password s (Some newPass)
     ∧ (∀ p, password s = Some p → currentPass = p)
     ∧ (∀ u, user s = Some u → username = u)
     ∧ ChangePassword username newPass = None
     ∧ ∀ ChangePassword',
         Cluster.UpdatePassword ChangePassword' s' username currentPass newPass
         = Ret (s', Some "Invalid current password")).
Proof.
  unfold Cluster.UpdatePassword at 1.
  destruct (String.eqb_spec currentPass newPass) as [Heq | Hne].
  { intros [= <- <-]. split; [reflexivity | discriminate]. }
  destruct (match password s with Some p => negb (String.eqb currentPass p) | None => false end)
    eqn:Hpass.
  { intros [= <- <-]. split; [reflexivity | discriminate]. }
  destruct (match user s with Some u => negb (String.eqb username u) | None => false end)
    eqn:Huser.
  { intros [= <- <-]. split; [reflexivity | discriminate]. }
  destruct (client (core s)) as [cl |]; [| discriminate].
  destruct (ChangePassword username newPass) as [e |] eqn:Hchange.
  { intros [= <- <-]. split; [reflexivity | discriminate]. }
  intros [= <- <-]. split; [intros H; contradiction |]. intros _.
  split; [exact Hne | split; [reflexivity | split; [| split; [| split]]]].
  - intros p Hp. rewrite Hp in Hpass. apply negb_false_iff, String.eqb_eq in Hpass.
    exact Hpass.
  - intros u Hu. rewrite Hu in Huser. apply negb_false_iff, String.eqb_eq in Huser.
    exact Huser.
  - reflexivity.
  - intros ChangePassword'. unfold Cluster.UpdatePassword. simpl.
    apply String.eqb_neq in Hne. rewrite Hne. reflexivity.
Qed.

Lemma UpdatePassword_validates_witness :
  Cluster.UpdatePassword (λ _ _, None) ex_state "admin" "secret" "s3cret"
    = Ret (set_password ex_state (Some "s3cret"), None)
  ∧ Cluster.UpdatePassword (λ _ _, None) (set_password ex_state (Some "s3cret"))
      "admin" "secret" "s3cret"
    = Ret (set_password ex_state (Some "s3cret"), Some "Invalid current password").
Proof.
  assert (H : Cluster.UpdatePassword (λ _ _, None) ex_state "admin" "secret" "s3cret"
              = Ret (set_password ex_state (Some "s3cret"), None)) by reflexivity.
  split; [exact H |].
  destruct (UpdatePassword_validates (λ _ _, None) ex_state _ "admin" "secret" "s3cret"
              None H) as [_ Hok].
  destruct (Hok eq_refl) as (_ & _ & _ & _ & _ & Hagain).
  exact (Hagain (λ _ _, None)).
Defined.

(** X12.  [SecurityEnabled] holds exactly when [User] returns a user, and
    the user returned is the stored one and never the empty string. *)
Theorem SecurityEnabled_iff_User (s : ClusterState) :
  (Cluster.SecurityEnabled s = true ↔ is_Some (Cluster.User s))
  ∧ ∀ u, Cluster.User s = Some u ↔ user s = Some u ∧ u ≠ "".
Proof.
  unfold Cluster.SecurityEnabled, Cluster.User.
  destruct (user s) as [[| ch u0] |]; simpl.
  - split.
    + split; [discriminate | intros [? ?]; discriminate].
    + intros u. split; [discriminate | intros [[= <-] H]; contradiction].
  - split.
    + split; [eauto | reflexivity].
    + intros u. split.
      * intros [= <-]. split; [reflexivity | discriminate].
      * intros [[= <-] _]. reflexivity.
  - split.
    + split; [discriminate | intros [? ?]; discriminate].
    + intros u. split; [discriminate | intros [[=] _]].
Qed.

(** X13.  A cluster made by [newCluster] has the alias given unless that is
    empty, in which case [Alias] falls back to the name the nodes report.
    With an empty user name it stores neither the user nor the password,
    security is not enabled, and [UpdatePassword] then checks neither the
    user nor the current password given: it hands any change to a
    different password to the client. *)
Theorem newCluster_alias_and_credentials (o : ObserverT) (cl : option Client)
    (clientNodes : list (Host * Node)) (id : string) (a : option string)
    (u p : string) :
  (∀ it, Cluster.Alias it (core (Cluster.newCluster o cl clientNodes id a u p))
         = match a with
           | Some x => if String.eqb x "" then Cluster.Name it else Some x
           | None => Cluster.Name it
           end)
  ∧ Cluster.User (Cluster.newCluster o cl clientNodes id a u p)
    = (if String.eqb u "" then None else Some u)
  ∧ password (Cluster.newCluster o cl clientNodes id a u p)
    = (if String.eqb u "" then None else Some p)
  ∧ Cluster.SecurityEnabled (Cluster.newCluster o cl clientNodes id a u p)
    = negb (String.eqb u "")
  ∧ (u = "" → cl ≠ None →
     ∀ ChangePassword username currentPass newPass, currentPass ≠ newPass →
       ∃ s', Cluster.UpdatePassword ChangePassword
               (Cluster.newCluster o cl clientNodes id a u p)
               username currentPass newPass
             = Ret (s', ChangePassword username newPass)).
Proof.
  split; [| split; [| split; [| split]]].
  - intros it. unfold Cluster.Alias, Cluster.newCluster. simpl.
    destruct a as [[| ch x] |]; reflexivity.
  - unfold Cluster.User, Cluster.newCluster. simpl.
    destruct u as [| ch u]; reflexivity.
  - unfold Cluster.newCluster. simpl. destruct u; reflexivity.
  - unfold Cluster.SecurityEnabled, Cluster.newCluster. simpl.
    destruct u as [| ch u]; reflexivity.
  - intros -> Hcl ChangePassword username currentPass newPass Hne.
    unfold Cluster.UpdatePassword, Cluster.newCluster. simpl.
    apply String.eqb_neq in Hne. rewrite Hne.
    destruct cl as [cl |]; [| contradiction]. simpl.
    destruct (ChangePassword username newPass); eauto.
Qed.

Lemma newCluster_alias_and_credentials_witness :
  ∃ s', Cluster.UpdatePassword (λ _ _, None)
          (Cluster.newCluster (mkObserver ex_config) (Some (mkClient true [])) []
             "0b8f4a9e" (Some "") "" "unused")
          "anyone" "a guess" "s3cret"
        = Ret (s', None).
Proof.
  apply (proj2 (proj2 (proj2 (proj2
           (newCluster_alias_and_credentials (mkObserver ex_config)
              (Some (mkClient true [])) [] "0b8f4a9e" (Some "") "" "unused"))))
           eq_refl ltac:(discriminate) (λ _ _, None) "anyone" "a guess" "s3cret").
  discriminate.
Defined.

(** ** The refresh gate *)

(** X14.  [newCluster] leaves [lastUpdate] and [lastPing] at the zero
    time.  At any clock reading later than the range of a [Duration] after
    the zero time (some 292 years), a new cluster is therefore due for a
    refresh whatever its update interval, and, until it is pinged or made
    permanent, eligible for auto-removal when the configured duration is
    positive and at most 9223372036 seconds. *)
Theorem newCluster_due_at_once (o : ObserverT) (cl : option Client)
    (clientNodes : list (Host * Node)) (id : string) (a : option string)
    (u p : string) (now : Time) :
  9223372036854775807 < now →
  Cluster.shouldUpdate now (Cluster.newCluster o cl clientNodes id a u p) = true
  ∧ (0 < AMC_InactiveDurBeforeRemoval (config o) <= 9223372036 →
     Cluster.shouldAutoRemove now (core (Cluster.newCluster o cl clientNodes id a u p))
     = true).
Proof.
  intros Hnow.
  assert (Hsince : time_Since now zeroTime = 9223372036854775807).
  { destruct (time_Since_cases now zeroTime) as [[_ ?] | [[-> _] | [_ ?]]];
      unfold zeroTime in *; [lia | reflexivity | lia]. }
  split.
  - unfold Cluster.shouldUpdate, Cluster.newCluster. simpl. rewrite Hsince.
    apply Z.leb_le. unfold seconds, wrap64.
    replace (2 ^ 63) with 9223372036854775808 by reflexivity.
    replace (2 ^ 64) with 18446744073709551616 by reflexivity.
    pose proof (Z.mod_pos_bound (AMC_UpdateInterval (config o) * Second + 9223372036854775808)
                  18446744073709551616 eq_refl). lia.
  - intros Hd. unfold Cluster.shouldAutoRemove, Cluster.newCluster. simpl.
    rewrite Hsince, seconds_small by lia.
    rewrite (proj2 (Z.ltb_lt 0 _)) by lia. simpl.
    apply Z.ltb_lt. unfold Second. lia.
Qed.

Lemma newCluster_due_at_once_witness :
  9223372036854775807 < 63900000000000000000
  ∧ Cluster.shouldUpdate 63900000000000000000
      (Cluster.newCluster (mkObserver ex_config) None [] "0b8f4a9e" None "" "") = true.
Proof.
  assert (H : 9223372036854775807 < 63900000000000000000) by reflexivity.
  split; [exact H |].
  exact (proj1 (newCluster_due_at_once (mkObserver ex_config) None [] "0b8f4a9e" None
                  "" "" 63900000000000000000 H)).
Defined.

Lemma shouldUpdate_after (s : ClusterState) (tm now : Time) :
  0 <= updateInterval s <= 9223372036 →
  (Cluster.shouldUpdate now (Cluster.setUpdatedAt s tm) = true
   ↔ updateInterval s * Second <= now - tm).
Proof.
  intros Hi. unfold Cluster.shouldUpdate, Cluster.setUpdatedAt. simpl.
  rewrite seconds_small by exact Hi. rewrite Z.leb_le.
  destruct (time_Since_cases now tm) as [[-> ?] | [[-> ?] | [-> ?]]];
    unfold Second in *; lia.
Qed.

(** X15.  After [setUpdatedAt(tm)], and for an update interval of at most
    9223372036 seconds that is not negative, [shouldUpdate] holds exactly
    when at least the interval has passed since [tm].  Changing the
    interval with [SetUpdateInterval] takes effect at the next check. *)
Theorem shouldUpdate_after_setUpdatedAt (s : ClusterState) (tm now : Time) (val : Z) :
  0 <= val <= 9223372036 →
  (Cluster.shouldUpdate now (Cluster.setUpdatedAt (Cluster.SetUpdateInterval s val) tm) = true
   ↔ val * Second <= now - tm)
  ∧ Cluster.UpdateInterval (Cluster.setUpdatedAt (Cluster.SetUpdateInterval s val) tm) = val.
Proof.
  intros Hval. split; [| reflexivity].
  apply (shouldUpdate_after (Cluster.SetUpdateInterval s val) tm now). exact Hval.
Qed.

Lemma shouldUpdate_after_setUpdatedAt_witness :
  0 <= 5 <= 9223372036
  ∧ (Cluster.shouldUpdate 14999999999
       (Cluster.setUpdatedAt (Cluster.SetUpdateInterval ex_state 5) 10000000000) = true
     ↔ 5 * Second <= 14999999999 - 10000000000).
Proof.
  assert (H : 0 <= 5 <= 9223372036) by lia.
  split; [exact H |].
  exact (proj1 (shouldUpdate_after_setUpdatedAt ex_state 10000000000 14999999999 5 H)).
Defined.



(** ** Namespaces *)






(** ** Delivery of one notification *)

Lemma deliver_from_slept_all_fail (SendMail : Mailer) (subject : string)
    (context : gmap string string) (i left : nat) :
  (∀ j, SendMail "alerts/generic.html" subject context j ≠ None) →
  slept (Cluster.deliver_from SendMail subject context i left)
  = Z.of_nat left * (5 * Second)
  ∧ (left ≠ 0%nat →
     last (Cluster.deliver_from SendMail subject context i left)
     = Some (EvSleep (5 * Second))).
Proof.
  intros Hfail. revert i. induction left as [| left IH]; intros i.
  - split; [reflexivity | intros H; contradiction].
  - simpl Cluster.deliver_from.
    destruct (SendMail _ _ _ i) as [err |] eqn:Hi; [| exfalso; exact (Hfail i Hi)].
    destruct (IH (S i)) as [IH1 IH2]. split.
    + simpl slept. fold (slept (Cluster.deliver_from SendMail subject context (S i) left)).
      rewrite IH1. lia.
    + intros _. destruct left as [| left']; [reflexivity |].
      rewrite !last_cons. rewrite IH2 by discriminate. reflexivity.
Qed.

Lemma deliver_from_slept_first_success (SendMail : Mailer) (subject : string)
    (context : gmap string string) (i left k : nat) :
  (k < left)%nat →
  (∀ j, (j < k)%nat → SendMail "alerts/generic.html" subject context (i + j)%nat ≠ None) →
  SendMail "alerts/generic.html" subject context (i + k)%nat = None →
  slept (Cluster.deliver_from SendMail subject context i left) = Z.of_nat k * (5 * Second)
  ∧ last (Cluster.deliver_from SendMail subject context i left)
    = Some (EvSendMail "alerts/generic.html" subject context None).
Proof.
  revert i k. induction left as [| left IH]; intros i k Hk Hfail Hok; [lia |].
  simpl Cluster.deliver_from. destruct k as [| k].
  - rewrite Nat.add_0_r in Hok. rewrite Hok. split; reflexivity.
  - destruct (SendMail _ _ _ i) as [err |] eqn:Hi.
    + destruct (IH (S i) k) as [IH1 IH2]; [lia | |  |].
      * intros j Hj. replace (S i + j)%nat with (i + S j)%nat by lia. apply Hfail. lia.
      * replace (S i + k)%nat with (i + S k)%nat by lia. exact Hok.
      * split.
        -- simpl slept.
           fold (slept (Cluster.deliver_from SendMail subject context (S i) left)).
           rewrite IH1. lia.
        -- rewrite !last_cons, IH2. reflexivity.
    + exfalso. apply (Hfail 0%nat); [lia |]. rewrite Nat.add_0_r. exact Hi.
Qed.

(** X18.  The goroutine that delivers one alert: when [SendMail] fails
    every time it makes exactly five calls and sleeps five seconds after
    each of them, the last one included, 25 seconds in all; when the call
    number [k] (from 0, below 5) is the first to succeed it makes [k + 1]
    calls, sleeps [5 k] seconds, and ends with the call that succeeded. *)
Theorem deliver_attempts_and_sleeps (SendMail : Mailer) (sanitizeHTML : string → string)
    (context : gmap string string) :
  ((∀ j, SendMail "alerts/generic.html"
           ("AMC Alert: " ++ sanitizeHTML (default "" (context !! "Message"))) context j
         ≠ None) →
   attempts (Cluster.deliver SendMail sanitizeHTML context) = 5%nat
   ∧ slept (Cluster.deliver SendMail sanitizeHTML context) = 25 * Second
   ∧ last (Cluster.deliver SendMail sanitizeHTML context) = Some (EvSleep (5 * Second)))
  ∧ ∀ k, (k < 5)%nat →
      (∀ j, (j < k)%nat →
            SendMail "alerts/generic.html"
              ("AMC Alert: " ++ sanitizeHTML (default "" (context !! "Message"))) context j
            ≠ None) →
      SendMail "alerts/generic.html"
        ("AMC Alert: " ++ sanitizeHTML (default "" (context !! "Message"))) context k
      = None →
      attempts (Cluster.deliver SendMail sanitizeHTML context) = S k
      ∧ slept (Cluster.deliver SendMail sanitizeHTML context) = Z.of_nat k * (5 * Second)
      ∧ last (Cluster.deliver SendMail sanitizeHTML context)
        = Some (EvSendMail "alerts/generic.html"
                  ("AMC Alert: " ++ sanitizeHTML (default "" (context !! "Message")))
                  context None).
Proof.
  unfold Cluster.deliver. split.
  - intros Hfail. split; [apply deliver_from_all_fail, Hfail |].
    destruct (deliver_from_slept_all_fail SendMail _ context 0 5 Hfail) as [H1 H2].
    split; [rewrite H1; reflexivity | apply H2; discriminate].
  - intros k Hk Hfail Hok. split.
    + apply deliver_from_first_success; [exact Hk | exact Hfail | exact Hok].
    + apply deliver_from_slept_first_success; [exact Hk | exact Hfail | exact Hok].
Qed.

Lemma deliver_attempts_and_sleeps_witness :
  attempts (Cluster.deliver (λ _ _ _ i, if (i <? 2)%nat then Some "refused" else None)
              (λ s, s) {[ "Message" := "Node is down" ]}) = 3%nat
  ∧ slept (Cluster.deliver (λ _ _ _ i, if (i <? 2)%nat then Some "refused" else None)
             (λ s, s) {[ "Message" := "Node is down" ]}) = 2 * (5 * Second).
Proof.
  destruct (proj2 (deliver_attempts_and_sleeps
                     (λ _ _ _ i, if (i <? 2)%nat then Some "refused" else None)
                     (λ s, s) {[ "Message" := "Node is down" ]}) 2%nat)
    as (H1 & H2 & _).
  - lia.
  - intros j Hj. destruct j as [| [| j]]; [discriminate | discriminate | lia].
  - reflexivity.
  - split; [exact H1 | exact H2].
Defined.

(** ** Throughput and server time *)

Lemma point_overlay {V : Type} (res nodeMap : gmap string (gmap string V))
    (stat addr : string) :
  point (union_with (λ (collected valueMap : gmap string V), Some (valueMap ∪ collected))
           res nodeMap) stat addr
  = match point nodeMap stat addr with
    | Some v => Some v
    | None => point res stat addr
    end.
Proof.
  unfold point. rewrite lookup_union_with.
  destruct (res !! stat) as [collected |], (nodeMap !! stat) as [valueMap |]; simpl;
    try reflexivity.
  - rewrite lookup_union. destruct (valueMap !! addr), (collected !! addr); reflexivity.
  - destruct (valueMap !! addr); reflexivity.
Qed.

(** X19.  In the result of [LatestThroughput] the point of a statistic for
    a node address is the one reported by the last node, in the order of
    the range, that reports a point for that statistic and address; it is
    missing exactly when no node reports one. *)
Theorem LatestThroughput_last_report {V : Type}
    (nodeThroughput : Node → gmap string (gmap string V)) (it : list (Host * Node))
    (stat addr : string) :
  point (Cluster.LatestThroughput nodeThroughput it) stat addr
  = last (omap (λ node, point (nodeThroughput node) stat addr) (Cluster.Nodes it)).
Proof.
  unfold Cluster.LatestThroughput. generalize (Cluster.Nodes it). intros ns.
  induction ns as [| n ns IH] using rev_ind; [reflexivity |].
  rewrite foldl_app, omap_app. simpl. rewrite point_overlay, IH.
  destruct (point (nodeThroughput n) stat addr) as [v |].
  - rewrite last_snoc. reflexivity.
  - rewrite app_nil_r. reflexivity.
Qed.

(** X20.  [ServerTime] is the latest of the server times of the nodes: no
    node is ahead of it, and it is the time of one of the nodes unless none
    is past the zero time, which is then the result. *)
Theorem ServerTime_is_latest (nodeTime : Node → Time) (it : list (Host * Node)) :
  (∀ n, n ∈ Cluster.Nodes it → nodeTime n <= Cluster.ServerTime nodeTime it)
  ∧ zeroTime <= Cluster.ServerTime nodeTime it
  ∧ (Cluster.ServerTime nodeTime it = zeroTime
     ∨ ∃ n, n ∈ Cluster.Nodes it ∧ Cluster.ServerTime nodeTime it = nodeTime n).
Proof.
  unfold Cluster.ServerTime. generalize (Cluster.Nodes it). intros ns.
  induction ns as [| n ns (IH1 & IH2 & IH3)] using rev_ind.
  - simpl. split; [intros n Hn; inversion Hn | split; [reflexivity | left; reflexivity]].
  - rewrite foldl_app. simpl.
    set (tm := foldl (λ (tm : Time) node,
                        if (tm <? nodeTime node)%Z then nodeTime node else tm)
                 zeroTime ns) in *.
    destruct (Z.ltb_spec tm (nodeTime n)) as [Hlt | Hge].
    + split; [| split; [lia |]].
      * intros m Hm. apply elem_of_app in Hm as [Hm | Hm].
        -- specialize (IH1 m Hm). lia.
        -- apply list_elem_of_singleton in Hm as ->. lia.
      * right. exists n. split; [apply elem_of_app; right; left | reflexivity].
    + split; [| split; [exact IH2 |]].
      * intros m Hm. apply elem_of_app in Hm as [Hm | Hm]; [auto |].
        apply list_elem_of_singleton in Hm as ->. exact Hge.
      * destruct IH3 as [IH3 | (m & Hm & IH3)]; [left; exact IH3 |].
        right. exists m. split; [apply elem_of_app; left; exact Hm | exact IH3].
Qed.

(** ** Builds in use *)

Lemma builds_collected (ns : list Node) :
  foldl (λ (builds : list string) node, (builds ++ [Node.Build node])%list) [] ns
  = Node.Build <$> ns.
Proof.
  induction ns as [| n ns IH] using rev_ind; [reflexivity |].
  rewrite foldl_app, fmap_app, IH. reflexivity.
Qed.

Lemma remove_dups_keeps_one_of_each : keeps_one_of_each remove_dups.
Proof.
  intros l. split; [apply NoDup_remove_dups | intros x; apply elem_of_remove_dups].
Qed.

(** X21.  When [StrUniq] keeps one copy of each string, [NodeBuilds] holds
    each build some node reports exactly once and nothing else, and
    [NodeCompatibility] answers [homogeneous] exactly when [NodeBuilds] has
    at most one build. *)
Theorem NodeBuilds_distinct_builds (StrUniq : list string → list string)
    (it : list (Host * Node)) :
  keeps_one_of_each StrUniq →
  NoDup (Cluster.NodeBuilds StrUniq it)
  ∧ (∀ b, b ∈ Cluster.NodeBuilds StrUniq it
          ↔ ∃ n, n ∈ Cluster.Nodes it ∧ Node.Build n = b)
  ∧ (Cluster.NodeCompatibility it = "homogeneous"
     ↔ (length (Cluster.NodeBuilds StrUniq it) <= 1)%nat).
Proof.
  intros Huniq. unfold Cluster.NodeBuilds, SortStrings. rewrite builds_collected.
  destruct (Huniq (Node.Build <$> Cluster.Nodes it)) as [Hnd Hmem].
  assert (Hperm : merge_sort string_le (StrUniq (Node.Build <$> Cluster.Nodes it))
                  ≡ₚ StrUniq (Node.Build <$> Cluster.Nodes it))
    by apply merge_sort_Permutation.
  split; [rewrite Hperm; exact Hnd | split].
  - intros b. rewrite Hperm, Hmem, list_elem_of_fmap. split.
    + intros (n & -> & Hn). eauto.
    + intros (n & Hn & <-). eauto.
  - rewrite Hperm. unfold Cluster.NodeCompatibility.
    assert (Hsize : size (Cluster.versionList_of (Cluster.Nodes it))
                    = length (StrUniq (Node.Build <$> Cluster.Nodes it))).
    { rewrite <- size_dom, versionList_of_dom.
      rewrite <- (size_list_to_set (C := gset string) _ Hnd). f_equal.
      apply set_eq. intros b. rewrite !elem_of_list_to_set. symmetry. apply Hmem. }
    rewrite Hsize.
    destruct (Nat.leb_spec (length (StrUniq (Node.Build <$> Cluster.Nodes it))) 1).
    + split; [intros _; assumption | reflexivity].
    + split; [discriminate | lia].
Qed.

Lemma NodeBuilds_distinct_builds_witness :
  keeps_one_of_each remove_dups
  ∧ (Cluster.NodeCompatibility ex_itAB = "homogeneous"
     ↔ (length (Cluster.NodeBuilds remove_dups ex_itAB) <= 1)%nat).
Proof.
  split; [exact remove_dups_keeps_one_of_each |].
  exact (proj2 (proj2 (NodeBuilds_distinct_builds remove_dups ex_itAB
                         remove_dups_keeps_one_of_each))).
Defined.

(** ** Protection from auto-removal *)

(** X22.  A cluster made permanent with [setPermanent(true)] is never
    eligible for auto-removal, whatever the clock and the last ping.  After
    [updateLastestPing] a cluster is not eligible until more than the
    configured duration (at most 9223372036 seconds) has passed, and
    [setPermanent(false)] does not touch the last ping. *)
Theorem setPermanent_and_ping (c : Cluster) (now : Time) :
  (∀ later, Cluster.shouldAutoRemove later (Cluster.setPermanent c true) = false)
  ∧ (∀ ping later,
       Cluster.shouldAutoRemove later
         (Cluster.updateLastestPing ping (Cluster.setPermanent c true)) = false)
  ∧ lastPing (Cluster.setPermanent c false) = lastPing c
  ∧ (AMC_InactiveDurBeforeRemoval (config (observer c)) <= 9223372036 →
     ∀ later, later - now <= AMC_InactiveDurBeforeRemoval (config (observer c)) * Second →
       Cluster.shouldAutoRemove later (Cluster.updateLastestPing now c) = false).
Proof.
  split; [reflexivity | split; [reflexivity | split; [reflexivity |]]].
  intros Hd later Hlater. unfold Cluster.shouldAutoRemove, Cluster.updateLastestPing. simpl.
  set (d := AMC_InactiveDurBeforeRemoval (config (observer c))) in *.
  destruct (permanent c); [reflexivity |]. simpl.
  destruct (Z.ltb_spec 0 d) as [Hpos | Hneg]; [| reflexivity]. simpl.
  rewrite seconds_small by lia. apply Z.ltb_ge.
  destruct (time_Since_cases later now) as [[-> ?] | [[-> ?] | [-> ?]]];
    unfold Second in *; lia.
Qed.

Lemma setPermanent_and_ping_witness :
  AMC_InactiveDurBeforeRemoval (config (observer ex_cluster)) <= 9223372036
  ∧ Cluster.shouldAutoRemove 100000000000
      (Cluster.updateLastestPing 70000000000 ex_cluster) = false.
Proof.
  assert (H : AMC_InactiveDurBeforeRemoval (config (observer ex_cluster)) <= 9223372036)
    by (vm_compute; discriminate).
  split; [exact H |].
  apply (proj2 (proj2 (proj2 (setPermanent_and_ping ex_cluster 70000000000))) H).
  vm_compute. discriminate.
Defined.

(** ** Basic authentication of the server *)

(** X23.  [Server] installs basic authentication exactly when a user name
    is set in [AMC_AUTH_USER] or, failing that, in the configuration; a
    password alone installs nothing.  User name and password are taken
    from the environment each on its own, with the configuration as the
    fallback, and a request passes exactly when it carries both. *)
Theorem basicAuth_credentials (env_user env_password cfg_user cfg_password : string) :
  match Server.basicAuth env_user env_password cfg_user cfg_password with
  | None => env_user = "" ∧ cfg_user = ""
  | Some valid =>
    (env_user ≠ "" ∨ cfg_user ≠ "")
    ∧ ∀ username password,
        valid username password = true
        ↔ username = (if String.eqb env_user "" then cfg_user else env_user)
          ∧ password = (if String.eqb env_password "" then cfg_password else env_password)
  end.
Proof.
  unfold Server.basicAuth.
  destruct (String.eqb_spec env_user "") as [-> | Henv].
  - destruct (String.eqb_spec cfg_user "") as [-> | Hcfg]; simpl; [auto |].
    split; [auto |]. intros username password.
    rewrite <- !String.eqb_eq.
    destruct (String.eqb username cfg_user), (String.eqb password _); simpl;
      split; try tauto; try discriminate; intros [? ?]; discriminate.
  - destruct (String.eqb_spec env_user "") as [? | _]; [contradiction |]. simpl.
    split; [auto |]. intros username password.
    rewrite <- !String.eqb_eq.
    destruct (String.eqb username env_user), (String.eqb password _); simpl;
      split; try tauto; try discriminate; intros [? ?]; discriminate.
Qed.

(** ** Content of the notification mails *)

Lemma deliver_from_events (SendMail : Mailer) (subject : string)
    (context : gmap string string) (i left : nat) (t s : string)
    (ctx : gmap string string) (r : error) :
  EvSendMail t s ctx r ∈ Cluster.deliver_from SendMail subject context i left →
  t = "alerts/generic.html" ∧ s = subject ∧ ctx = context.
Proof.
  revert i. induction left as [| left IH]; intros i; simpl.
  - intros H. inversion H.
  - destruct (SendMail _ _ _ i) as [err |].
    + rewrite !elem_of_cons.
      intros [[= -> -> -> _] | [[=] | [[=] | H]]]; [auto | eapply IH, H].
    + intros H. apply list_elem_of_singleton in H. injection H as -> -> -> _. auto.
Qed.

(** X24.  Every mail that [SendEmailNotifications] sends uses the template
    [alerts/generic.html], carries the title [Alert], names the cluster by
    its alias or, when [Alias] gives none, by its id, and is about one of
    the alerts drained: it has that alert's node address and description,
    and its subject is [AMC Alert: ] followed by the sanitized
    description. *)
Theorem SendEmailNotifications_mail_content (SendMail : Mailer)
    (sanitizeHTML : string → string) (it : list (Host * Node)) (c : Cluster)
    (tr : list MailEvent) (t s : string) (ctx : gmap string string) (r : error) :
  tr ∈ (Cluster.SendEmailNotifications SendMail sanitizeHTML it c).2 →
  EvSendMail t s ctx r ∈ tr →
  t = "alerts/generic.html"
  ∧ ctx !! "Title" = Some "Alert"
  ∧ ctx !! "Cluster" = Some (match Cluster.Alias it c with
                             | Some alias => alias
                             | None => Cluster.Id c
                             end)
  ∧ ∃ alert, alert ∈ (DrainNewAlerts (alerts c)).1
      ∧ ctx !! "Node" = Some (Alert_NodeAddress alert)
      ∧ ctx !! "Message" = Some (Alert_Desc alert)
      ∧ s = "AMC Alert: " ++ sanitizeHTML (Alert_Desc alert).
Proof.
  unfold Cluster.SendEmailNotifications.
  destruct (DrainNewAlerts (alerts c)) as [newAlerts bucket]. simpl.
  destruct (String.length (Mailer_Host (config (observer c))) =? 0)%nat; simpl.
  - intros H. inversion H.
  - intros Htr He. apply list_elem_of_fmap in Htr as (alert & -> & Halert).
    unfold Cluster.deliver in He. apply deliver_from_events in He as (-> & -> & ->).
    split; [reflexivity | split; [apply lookup_insert_eq | split]].
    + rewrite lookup_insert_ne by discriminate. apply lookup_insert_eq.
    + exists alert. split; [exact Halert |].
      assert (Hmsg : ∀ m : gmap string string,
                (<["Title" := "Alert"]> (<["Cluster" := match Cluster.Alias it
                     (set_alerts c bucket) with Some alias => alias | None =>
                     Cluster.Id (set_alerts c bucket) end]>
                   (<["Node" := Alert_NodeAddress alert]> m))) !! "Node"
                = Some (Alert_NodeAddress alert)).
      { intros m. rewrite !lookup_insert_ne by discriminate. apply lookup_insert_eq. }
      split; [apply Hmsg | split].
      * rewrite !lookup_insert_ne by discriminate. apply lookup_insert_eq.
      * rewrite !lookup_insert_ne by discriminate. rewrite lookup_insert_eq. reflexivity.
Qed.

Lemma SendEmailNotifications_mail_content_witness :
  ∃ tr ctx,
    tr ∈ (Cluster.SendEmailNotifications (λ _ _ _ _, None) (λ s, s) ex_itAB
            (set_alerts ex_cluster ex_bucket)).2
    ∧ EvSendMail "alerts/generic.html" "AMC Alert: Node is down" ctx None ∈ tr
    ∧ ctx !! "Cluster" = Some "0b8f4a9e".
Proof.
  assert (Hout : ∃ tr ctx,
    tr ∈ (Cluster.SendEmailNotifications (λ _ _ _ _, None) (λ s, s) ex_itAB
            (set_alerts ex_cluster ex_bucket)).2
    ∧ EvSendMail "alerts/generic.html" "AMC Alert: Node is down" ctx None ∈ tr).
  { eexists _, _. split; [vm_compute; apply list_elem_of_here | apply list_elem_of_here]. }
  destruct Hout as (tr & ctx & H1 & H2).
  exists tr, ctx. split; [exact H1 | split; [exact H2 |]].
  exact (proj1 (proj2 (proj2 (SendEmailNotifications_mail_content (λ _ _ _ _, None)
                                (λ s, s) ex_itAB (set_alerts ex_cluster ex_bucket)
                                tr _ _ ctx None H1 H2)))).
Defined.

(** ** Independence of the order of ranges and of arrival *)

Lemma RandomActiveNode_Some_iff (m : gmap Host Node) (it : list (Host * Node)) :
  range_of m it →
  (is_Some (Cluster.RandomActiveNode it) ↔ ∃ h n, m !! h = Some n ∧ Node.Status n = On).
Proof.
  intros Hit. unfold Cluster.RandomActiveNode. split.
  - intros [n Hn]. apply find_some in Hn as [Hin Hon].
    apply list_elem_of_In, (range_of_Nodes m it n Hit) in Hin as [h Hh].
    apply bool_decide_eq_true in Hon. eauto.
  - intros (h & n & Hn & Hon).
    destruct (List.find _ (Cluster.Nodes it)) as [n' |] eqn:Hfind; [eauto |].
    assert (Hin : n ∈ Cluster.Nodes it) by (apply (range_of_Nodes m it n Hit); eauto).
    apply list_elem_of_In in Hin. apply (find_none _ _ Hfind) in Hin.
    apply bool_decide_eq_false in Hin. contradiction.
Qed.

(** X25.  The order in which Go ranges over the node map does not show in
    these results: [NodeCompatibility] is the same for any two orders,
    [OffNodes] and [NodeList] list the same addresses, [RandomActiveNode]
    finds a node for one order exactly when it does for the other, and,
    when the nodes are told apart by their address, [FindNodeByAddress]
    finds the same node. *)
Theorem range_order_does_not_matter (m : gmap Host Node) (it1 it2 : list (Host * Node)) :
  range_of m it1 → range_of m it2 →
  Cluster.NodeCompatibility it1 = Cluster.NodeCompatibility it2
  ∧ Cluster.OffNodes it1 ≡ₚ Cluster.OffNodes it2
  ∧ Cluster.NodeList it1 ≡ₚ Cluster.NodeList it2
  ∧ (is_Some (Cluster.RandomActiveNode it1) ↔ is_Some (Cluster.RandomActiveNode it2))
  ∧ (nodes_distinct m →
     ∀ address, Cluster.FindNodeByAddress it1 address
                = Cluster.FindNodeByAddress it2 address).
Proof.
  intros Hit1 Hit2.
  assert (Hnodes : Cluster.Nodes it1 ≡ₚ Cluster.Nodes it2).
  { unfold Cluster.Nodes, range_of in *. rewrite Hit1, Hit2. reflexivity. }
  split; [| split; [| split; [| split]]].
  - unfold Cluster.NodeCompatibility.
    assert (Hsize : ∀ ns, size (Cluster.versionList_of ns)
                          = size (list_to_set (Node.Build <$> ns) : gset string))
      by (intros ns; rewrite <- versionList_of_dom, size_dom; reflexivity).
    rewrite !Hsize.
    assert (Hbuilds : Node.Build <$> Cluster.Nodes it1 ≡ₚ Node.Build <$> Cluster.Nodes it2)
      by (rewrite Hnodes; reflexivity).
    rewrite (list_to_set_perm_L (C := gset string) _ _ Hbuilds). reflexivity.
  - rewrite !OffNodes_filter, Hnodes. reflexivity.
  - unfold Cluster.NodeList, SortStrings. rewrite !merge_sort_Permutation, Hnodes.
    reflexivity.
  - rewrite (RandomActiveNode_Some_iff m it1 Hit1), (RandomActiveNode_Some_iff m it2 Hit2).
    reflexivity.
  - intros Hdist address.
    destruct (Cluster.FindNodeByAddress it1 address) as [n1 |] eqn:H1,
             (Cluster.FindNodeByAddress it2 address) as [n2 |] eqn:H2.
    + apply FindNodeByAddress_Some in H1 as [Hin1 Ha1].
      apply FindNodeByAddress_Some in H2 as [Hin2 Ha2].
      apply (range_of_Nodes m it1 n1 Hit1) in Hin1 as [h1 Hh1].
      apply (range_of_Nodes m it2 n2 Hit2) in Hin2 as [h2 Hh2].
      destruct (Hdist h1 h2 n1 n2 Hh1 Hh2) as [_ Hsame].
      rewrite (Hsame (eq_trans Ha1 (eq_sym Ha2))). reflexivity.
    + exfalso. apply FindNodeByAddress_Some in H1 as [Hin1 Ha1].
      apply (FindNodeByAddress_None _ _ H2 n1); [| exact Ha1].
      rewrite <- Hnodes. exact Hin1.
    + exfalso. apply FindNodeByAddress_Some in H2 as [Hin2 Ha2].
      apply (FindNodeByAddress_None _ _ H1 n2); [| exact Ha2].
      rewrite Hnodes. exact Hin2.
    + reflexivity.
Qed.

Lemma range_order_does_not_matter_witness :
  range_of (nodes ex_cluster) ex_itAB
  ∧ range_of (nodes ex_cluster) (map_to_list (nodes ex_cluster))
  ∧ Cluster.NodeCompatibility ex_itAB
    = Cluster.NodeCompatibility (map_to_list (nodes ex_cluster)).
Proof.
  split; [exact ex_itAB_range | split; [apply range_of_map_to_list |]].
  exact (proj1 (range_order_does_not_matter (nodes ex_cluster) ex_itAB
                  (map_to_list (nodes ex_cluster)) ex_itAB_range
                  (range_of_map_to_list (nodes ex_cluster)))).
Defined.

(** X26.  The order in which the goroutines of [RequestInfoAll] deliver
    their answers does not show in the map returned, when the nodes are
    told apart by their pointer, nor in whether an error is returned; only
    the order of the texts in the error depends on it. *)
Theorem RequestInfoAll_arrival_order (cmd : string) (ch1 ch2 : list nodeCommand) :
  ch1 ≡ₚ ch2 → NoDup (node_ptr <$> (nc_Node <$> ch1)) →
  (Cluster.RequestInfoAll cmd ch1).1 = (Cluster.RequestInfoAll cmd ch2).1
  ∧ ((Cluster.RequestInfoAll cmd ch1).2 = None ↔ (Cluster.RequestInfoAll cmd ch2).2 = None)
  ∧ ∀ e1 e2, (Cluster.RequestInfoAll cmd ch1).2 = Some e1 →
             (Cluster.RequestInfoAll cmd ch2).2 = Some e2 →
             ∃ errs1 errs2, errs1 ≡ₚ errs2 ∧ e1 = Join errs1 ", " ∧ e2 = Join errs2 ", ".
Proof.
  intros Hperm Hnd1.
  assert (Hnd2 : NoDup (node_ptr <$> (nc_Node <$> ch2))) by (rewrite <- Hperm; exact Hnd1).
  assert (Herrs : omap nc_Err ch1 ≡ₚ omap nc_Err ch2) by (rewrite Hperm; reflexivity).
  rewrite !RequestInfoAll_unfold. simpl. split; [| split].
  - apply map_eq. intros p.
    destruct (foldl _ ∅ ch1 !! p) as [v |] eqn:H1.
    + apply collected_from in H1 as [(r & Hr & <- & ->) | H1];
        [| rewrite lookup_empty in H1; discriminate].
      symmetry. apply collected_entry; [exact Hnd2 | rewrite <- Hperm; exact Hr].
    + destruct (foldl _ ∅ ch2 !! p) as [v |] eqn:H2; [| reflexivity].
      apply collected_from in H2 as [(r & Hr & <- & ->) | H2];
        [| rewrite lookup_empty in H2; discriminate].
      rewrite collected_entry in H1; [discriminate | exact Hnd1 | rewrite Hperm; exact Hr].
  - destruct (omap nc_Err ch1) as [| a1 l1] eqn:E1, (omap nc_Err ch2) as [| a2 l2] eqn:E2;
      try (split; [reflexivity | reflexivity]); try (split; discriminate).
    + apply Permutation_nil_l in Herrs. discriminate.
    + apply Permutation_nil_r in Herrs. discriminate.
  - intros e1 e2 H1 H2.
    destruct (omap nc_Err ch1) as [| a1 l1] eqn:E1; [discriminate |].
    destruct (omap nc_Err ch2) as [| a2 l2] eqn:E2; [discriminate |].
    injection H1 as <-. injection H2 as <-. eauto.
Qed.

Lemma RequestInfoAll_arrival_order_witness :
  ex_channel ≡ₚ reverse ex_channel
  ∧ NoDup (node_ptr <$> (nc_Node <$> ex_channel))
  ∧ (Cluster.RequestInfoAll "build" ex_channel).1
    = (Cluster.RequestInfoAll "build" (reverse ex_channel)).1.
Proof.
  assert (H1 : ex_channel ≡ₚ reverse ex_channel) by (symmetry; apply reverse_Permutation).
  assert (H2 : NoDup (node_ptr <$> (nc_Node <$> ex_channel))).
  { simpl. apply NoDup_cons. split.
    - intros H. apply list_elem_of_singleton in H. discriminate.
    - apply NoDup_singleton. }
  split; [exact H1 | split; [exact H2 |]].
  exact (proj1 (RequestInfoAll_arrival_order "build" ex_channel (reverse ex_channel) H1 H2)).
Defined.

(** ** Namespace details per node *)

(** X27.  [NamespaceInfoPerNode] answers for every address asked for, and
    for no other.  An address that belongs to no node of the cluster, or to
    a node that does not have the namespace, gets the entry
    [{node_status: off}]. *)
Theorem NamespaceInfoPerNode_every_address (nodeInfo : Node → Namespace → Stats)
    (c : Cluster) (ns : string) (requests : list (list (Host * Node) * string)) :
  Forall (λ r, range_of (nodes c) r.1) requests →
  dom (Cluster.NamespaceInfoPerNode nodeInfo ns requests) = list_to_set requests.*2
  ∧ ∀ address, address ∈ requests.*2 →
      ¬ (∃ h node, nodes c !! h = Some node ∧ Node.Address node = address
                   ∧ is_Some (Node.NamespaceByName node ns)) →
      Cluster.NamespaceInfoPerNode nodeInfo ns requests !! address
      = Some {[ "node_status" := VString "off" ]}.
Proof.
  intros Hreq. unfold Cluster.NamespaceInfoPerNode.
  induction requests as [| [it addr] requests IH] using rev_ind.
  - split; [simpl; apply dom_empty_L | intros a Ha; inversion Ha].
  - apply Forall_app in Hreq as [Hreq Hlast]. rewrite Forall_singleton in Hlast.
    simpl in Hlast. destruct (IH Hreq) as [IHdom IHoff]. clear IH.
    rewrite foldl_app, fmap_app, list_to_set_app_L. simpl.
    assert (Hdom : ∀ v, dom (<[addr := v]>
                               (foldl (λ (res : gmap string Stats) '(it, nodeAddress),
                                  match Cluster.FindNodeByAddress it nodeAddress with
                                  | None =>
                                    <[nodeAddress := {[ "node_status" := VString "off" ]}]> res
                                  | Some node =>
                                    match Node.NamespaceByName node ns with
                                    | None =>
                                      <[nodeAddress := {[ "node_status" := VString "off" ]}]>
                                        res
                                    | Some ns => <[nodeAddress := nodeInfo node ns]> res
                                    end
                                  end) ∅ requests))
                      = (list_to_set requests.*2 ∪ ({[addr]} ∪ ∅) : gset string)).
    { intros v. rewrite dom_insert_L, IHdom. apply set_eq. intros x.
      rewrite !elem_of_union, !elem_of_singleton, elem_of_empty. tauto. }
    assert (Hother : ∀ address, address ∈ (requests.*2 ++ [addr])%list → address ≠ addr →
                       address ∈ requests.*2).
    { intros address Ha Hne. apply elem_of_app in Ha as [Ha | Ha]; [exact Ha |].
      apply list_elem_of_singleton in Ha. contradiction. }
    destruct (Cluster.FindNodeByAddress it addr) as [node |] eqn:Hfind;
      [destruct (Node.NamespaceByName node ns) as [n |] eqn:Hns |];
      (split; [apply Hdom |]); intros address Ha Hno;
      (destruct (decide (address = addr)) as [-> | Hne];
       [rewrite lookup_insert_eq
       | rewrite lookup_insert_ne by congruence; apply IHoff; auto]);
      try reflexivity.
    exfalso. apply Hno. apply FindNodeByAddress_Some in Hfind as [Hin Haddr].
    apply (range_of_Nodes (nodes c) it node Hlast) in Hin as [h Hh].
    exists h, node. rewrite Hns. eauto.
Qed.

Lemma NamespaceInfoPerNode_every_address_witness :
  Forall (λ r, range_of (nodes ex_cluster) r.1) [(ex_itAB, "A:3000")]
  ∧ Cluster.NamespaceInfoPerNode (λ _ n, Namespace_Stats n) "bar" [(ex_itAB, "A:3000")]
      !! "A:3000"
    = Some {[ "node_status" := VString "off" ]}.
Proof.
  assert (H : Forall (λ r, range_of (nodes ex_cluster) r.1) [(ex_itAB, "A:3000")])
    by (apply Forall_cons_2; [exact ex_itAB_range | apply Forall_nil_2]).
  split; [exact H |].
  apply (proj2 (NamespaceInfoPerNode_every_address (λ _ n, Namespace_Stats n) ex_cluster
                  "bar" [(ex_itAB, "A:3000")] H)); [left |].
  intros (h & node & Hnode & _ & Hhas).
  apply (range_of_entry _ _ h node ex_itAB_range) in Hnode.
  unfold ex_itAB in Hnode. rewrite !elem_of_cons in Hnode.
  destruct Hnode as [[= _ ->] | [[= _ ->] | Hnode]];
    [destruct Hhas as [? Hhas]; vm_compute in Hhas; discriminate
    | destruct Hhas as [? Hhas]; vm_compute in Hhas; discriminate
    | inversion Hnode].
Defined.
